(** * GxPT/sloc.py: a shallow embedding of the SLOC counter

    The script counts the source lines of the [.cs] files below a directory
    and prints a table sorted by count.  The embedding follows the script
    function by function:

    - [Text]       Python [str] values and the [str] methods the script calls;
    - [Codec]      the UTF-8 decoder and the universal-newlines line iterator
                   behind [open(file_path, 'r', encoding='utf-8')];
    - [Classifier] the loop of [count_sloc_in_file];
    - [Walker]     [os.walk] over a directory tree and [count_sloc_in_directory];
    - [Reporter]   [print_sloc_table];
    - [Main]       the [__main__] block with its [list.sort] call.

    The modules [ClassifierSpec], [ReporterSpec], [MainSpec] and
    [WalkerSpec] hold the notions the properties are stated with, and the
    [...Facts] modules the properties themselves.  The model of the file
    system is a tree of regular files and directories: no symbolic links,
    no unreadable entries.  The output is the sequence of texts handed to
    [print]; the stream they are written to is not modelled. *)

From Stdlib Require Import List Bool Arith NArith Lia.
From Stdlib.Strings Require Import Ascii String Byte.
From Stdlib Require Import Permutation Sorted.
From Stdlib Require Decimal DecimalNat.
Import ListNotations.

Set Implicit Arguments.
Set Warnings "-register-all".

(** ** Python strings *)

Module Text.

(** A Python [str] is a sequence of Unicode code points. *)
Definition char := N.
Definition text := list char.

(** A literal of the script, written as a Rocq string of ASCII characters. *)
Definition txt (s : string) : text :=
  List.map N_of_ascii (list_ascii_of_string s).

Definition text_eqb (a b : text) : bool :=
  if list_eq_dec N.eq_dec a b then true else false.

(** [str.isspace] on one character, as [str.strip] with no argument uses
    it: the ASCII separators and controls 0x09-0x0D and 0x1C-0x20, and the
    Unicode characters of bidirectional type WS, B or S or category Zs. *)
Definition isspace (c : char) : bool :=
  ((9 <=? c) && (c <=? 13) || (28 <=? c) && (c <=? 32)
   || (c =? 133) || (c =? 160) || (c =? 5760)
   || (8192 <=? c) && (c <=? 8202)
   || (c =? 8232) || (c =? 8233) || (c =? 8239) || (c =? 8287)
   || (c =? 12288))%N.

Fixpoint lstrip (s : text) : text :=
  match s with
  | [] => []
  | c :: rest => if isspace c then lstrip rest else s
  end.

Definition rstrip (s : text) : text := List.rev (lstrip (List.rev s)).

(** [s.strip()] *)
Definition strip (s : text) : text := rstrip (lstrip s).

(** [s.startswith(prefix)] *)
Fixpoint startswith (prefix s : text) : bool :=
  match prefix, s with
  | [], _ => true
  | _ :: _, [] => false
  | p :: prefix', c :: s' => (p =? c)%N && startswith prefix' s'
  end.

(** [s.endswith(suffix)] *)
Definition endswith (suffix s : text) : bool :=
  startswith (List.rev suffix) (List.rev s).

(** [sub in s] *)
Fixpoint contains (sub s : text) : bool :=
  startswith sub s ||
  match s with
  | [] => false
  | _ :: s' => contains sub s'
  end.

(** [not s] for a string: true on the empty string only. *)
Definition is_empty (s : text) : bool :=
  match s with [] => true | _ :: _ => false end.

End Text.
Import Text.

(** ** Exceptions *)

Inductive exn : Type :=
| UnicodeDecodeError
| FileNotFoundError.

(** The outcome of a call that may raise. *)
Inductive result (A : Type) : Type :=
| Ok (a : A)
| Raise (e : exn).
Arguments Ok {A} a.
Arguments Raise {A} e.

Definition bind {A B : Type} (r : result A) (k : A -> result B) : result B :=
  match r with
  | Ok a => k a
  | Raise e => Raise e
  end.

Notation "x <- r ;; k" := (bind r (fun x => k))
  (at level 61, r at next level, right associativity).

(** ** Reading a text file *)

Module Codec.

Definition LF : char := 10%N.
Definition CR : char := 13%N.

Definition is_cont (b : N) : bool := ((128 <=? b) && (b <=? 191))%N.

Definition in_range (lo hi b : N) : bool := ((lo <=? b) && (b <=? hi))%N.

(** The strict UTF-8 decoder ([errors='strict'], the default of [open]):
    only the well-formed byte sequences of the Unicode standard decode, so
    overlong forms, surrogates and values above U+10FFFF are errors. *)
Fixpoint utf8_decode (bs : list N) : option text :=
  match bs with
  | [] => Some []
  | b0 :: r0 =>
    if (b0 <? 128)%N then option_map (cons b0) (utf8_decode r0)
    else if in_range 194 223 b0 then
      match r0 with
      | b1 :: r1 =>
        if is_cont b1
        then option_map (cons ((b0 - 192) * 64 + (b1 - 128))%N) (utf8_decode r1)
        else None
      | _ => None
      end
    else if in_range 224 239 b0 then
      match r0 with
      | b1 :: b2 :: r2 =>
        if in_range (if (b0 =? 224)%N then 160 else 128)
                    (if (b0 =? 237)%N then 159 else 191) b1 && is_cont b2
        then option_map
               (cons ((b0 - 224) * 4096 + (b1 - 128) * 64 + (b2 - 128))%N)
               (utf8_decode r2)
        else None
      | _ => None
      end
    else if in_range 240 244 b0 then
      match r0 with
      | b1 :: b2 :: b3 :: r3 =>
        if in_range (if (b0 =? 240)%N then 144 else 128)
                    (if (b0 =? 244)%N then 143 else 191) b1
           && is_cont b2 && is_cont b3
        then option_map
               (cons ((b0 - 240) * 262144 + (b1 - 128) * 4096
                      + (b2 - 128) * 64 + (b3 - 128))%N)
               (utf8_decode r3)
        else None
      | _ => None
      end
    else None
  end.

(** [bytes.decode('utf-8')] on the contents of a file. *)
Definition decode (content : list byte) : option text :=
  utf8_decode (List.map Byte.to_N content).

(** Universal newlines (the default [newline=None] of [open]): the line
    ends CR LF and CR are read as LF. *)
Fixpoint translate_newlines (s : text) : text :=
  match s with
  | [] => []
  | c :: rest =>
    if (c =? CR)%N then
      LF :: translate_newlines
              (match rest with
               | c' :: rest' => if (c' =? LF)%N then rest' else rest
               | [] => rest
               end)
    else c :: translate_newlines rest
  end.

(** The lines of a translated text, each one with its closing LF (the last
    line has none when the text does not end with one). *)
Fixpoint split_lines (s : text) : list text :=
  match s with
  | [] => []
  | c :: rest =>
    if (c =? LF)%N then [LF] :: split_lines rest
    else match split_lines rest with
         | [] => [[c]]
         | l :: ls => (c :: l) :: ls
         end
  end.

(** [for line in file]: the lines the iterator of a text file yields. *)
Definition file_lines (s : text) : list text :=
  split_lines (translate_newlines s).

(** The bytes of an ASCII text. *)
Definition encode_ascii (s : string) : list byte := list_byte_of_string s.

End Codec.
Import Codec.

(** ** The line classifier: [count_sloc_in_file] *)

Module Classifier.

(** The two local variables the loop updates. *)
Record loop_state : Type := LoopState {
  in_block_comment : bool;
  sloc : nat
}.

(** The state before the first line. *)
Definition initial : loop_state :=
  {| in_block_comment := false; sloc := 0 |}.

(** One turn of [for line in file]. *)
Definition loop_body (st : loop_state) (line : text) : loop_state :=
  let stripped_line := strip line in
  if in_block_comment st then
    if contains (txt "*/") stripped_line
    then {| in_block_comment := false; sloc := sloc st |}
    else st
  else if is_empty stripped_line || startswith (txt "//") stripped_line then st
  else if startswith (txt "/*") stripped_line
  then {| in_block_comment := true; sloc := sloc st |}
  else {| in_block_comment := in_block_comment st; sloc := S (sloc st) |}.

(** The whole loop from a given state. *)
Definition run_loop (st : loop_state) (lines : list text) : loop_state :=
  fold_left loop_body lines st.

(** The value of [sloc] at [return sloc], for a file with these lines. *)
Definition count_sloc_lines (lines : list text) : nat :=
  sloc (run_loop initial lines).

(** [count_sloc_in_file(file_path)].  [fs_open] is the file system: the
    bytes of the file at a path, or the exception [open] raises there. *)
Definition count_sloc_in_file (fs_open : text -> result (list byte))
    (file_path : text) : result nat :=
  content <- fs_open file_path ;;
  match decode content with
  | None => Raise UnicodeDecodeError
  | Some s => Ok (count_sloc_lines (file_lines s))
  end.

End Classifier.
Import Classifier.

(** ** The directory walker: [os.walk] and [count_sloc_in_directory] *)

Module Walker.

(** What lies below the scanned directory: regular files with their bytes
    and subdirectories with their own entries, in listing order. *)
Inductive entry : Type :=
| File (name : text) (content : list byte)
| Dir (name : text) (children : list entry).

Definition tree := list entry.

(** [(root, dirs, files)], one item of [os.walk]. *)
Definition walk_item : Type := text * list text * list text.

Section Walk.

(** [os.path.join], which depends on the platform. *)
Variable os_path_join : text -> text -> text.

Definition dirnames (es : tree) : list text :=
  flat_map (fun e => match e with Dir name _ => [name] | File _ _ => [] end) es.

Definition filenames (es : tree) : list text :=
  flat_map (fun e => match e with File name _ => [name] | Dir _ _ => [] end) es.

(** The items [os.walk] yields for a subdirectory of [top], top-down: the
    subdirectory itself, then its own subdirectories in listing order. *)
Fixpoint walk_entry (top : text) (e : entry) : list walk_item :=
  match e with
  | File _ _ => []
  | Dir name children =>
    let new_path := os_path_join top name in
    (new_path, dirnames children, filenames children)
      :: flat_map (walk_entry new_path) children
  end.

(** [os.walk(top)] where [es] is what the directory [top] holds. *)
Definition os_walk (top : text) (es : tree) : list walk_item :=
  (top, dirnames es, filenames es) :: flat_map (walk_entry top) es.

(** The files below [top] by path, as [open] finds them. *)
Fixpoint paths_entry (top : text) (e : entry) : list (text * list byte) :=
  match e with
  | File name content => [(os_path_join top name, content)]
  | Dir name children => flat_map (paths_entry (os_path_join top name)) children
  end.

Definition paths (top : text) (es : tree) : list (text * list byte) :=
  flat_map (paths_entry top) es.

Fixpoint lookup (path : text) (ps : list (text * list byte))
  : option (list byte) :=
  match ps with
  | [] => None
  | (p, content) :: ps' => if text_eqb p path then Some content else lookup path ps'
  end.

(** [open(path, 'r')] followed by reading the file to its end. *)
Definition fs_open (top : text) (es : tree) (path : text)
  : result (list byte) :=
  match lookup path (paths top es) with
  | Some content => Ok content
  | None => Raise FileNotFoundError
  end.

Section Scan.

Variable open_ : text -> result (list byte).

(** The inner loop [for file in files], with the list built so far. *)
Fixpoint scan_files (root : text) (files : list text)
    (file_sloc_pairs : list (text * nat)) : result (list (text * nat)) :=
  match files with
  | [] => Ok file_sloc_pairs
  | file :: files' =>
    if endswith (txt ".cs") file then
      let file_path := os_path_join root file in
      sloc <- count_sloc_in_file open_ file_path ;;
      scan_files root files' (file_sloc_pairs ++ [(file_path, sloc)])
    else scan_files root files' file_sloc_pairs
  end.

(** The outer loop [for root, _, files in os.walk(directory)]. *)
Fixpoint scan_walk (items : list walk_item)
    (file_sloc_pairs : list (text * nat)) : result (list (text * nat)) :=
  match items with
  | [] => Ok file_sloc_pairs
  | (root, _, files) :: items' =>
    pairs <- scan_files root files file_sloc_pairs ;;
    scan_walk items' pairs
  end.

End Scan.

(** [count_sloc_in_directory(directory)], where [es] is what the file
    system holds below [directory]. *)
Definition count_sloc_in_directory (directory : text) (es : tree)
  : result (list (text * nat)) :=
  scan_walk (fs_open directory es) (os_walk directory es) [].

End Walk.

(** [posixpath.join] of two components. *)
Definition posix_join (a b : text) : text :=
  if startswith (txt "/") b then b
  else if is_empty a || endswith (txt "/") a then a ++ b
  else a ++ txt "/" ++ b.

End Walker.
Import Walker.

(** ** The reporter: [print_sloc_table] *)

Module Reporter.

Definition space : char := 32%N.

(** [format(s, '<w')]: pad on the right up to the width, never cut. *)
Definition ljust (w : nat) (s : text) : text :=
  s ++ repeat space (w - List.length s).

(** [format(s, '>w')]: pad on the left up to the width, never cut. *)
Definition rjust (w : nat) (s : text) : text :=
  repeat space (w - List.length s) ++ s.

Fixpoint uint_text (u : Decimal.uint) : text :=
  match u with
  | Decimal.Nil => []
  | Decimal.D0 u' => 48%N :: uint_text u'
  | Decimal.D1 u' => 49%N :: uint_text u'
  | Decimal.D2 u' => 50%N :: uint_text u'
  | Decimal.D3 u' => 51%N :: uint_text u'
  | Decimal.D4 u' => 52%N :: uint_text u'
  | Decimal.D5 u' => 53%N :: uint_text u'
  | Decimal.D6 u' => 54%N :: uint_text u'
  | Decimal.D7 u' => 55%N :: uint_text u'
  | Decimal.D8 u' => 56%N :: uint_text u'
  | Decimal.D9 u' => 57%N :: uint_text u'
  end.

(** The decimal numeral of a non-negative [int], as [format] writes it. *)
Definition int_text (n : nat) : text := uint_text (Nat.to_uint n).

(** ["{:<60} {:>10}".format(a, b)] once [b] is text. *)
Definition format_row (a b : text) : text :=
  ljust 60 a ++ space :: rjust 10 b.

Definition header : text := format_row (txt "Filename") (txt "SLOC").

(** ["=" * len(header)] *)
Definition rule : text := repeat 61%N (List.length header).

(** What the loop over the pairs updates: the lines printed so far and
    [total_sloc]. *)
Record report_state : Type := ReportState {
  printed : list text;
  total_sloc : nat
}.

Definition report_body (st : report_state) (pair : text * nat) : report_state :=
  let '(file_path, sloc) := pair in
  {| printed := printed st ++ [format_row file_path (int_text sloc)];
     total_sloc := total_sloc st + sloc |}.

(** [print_sloc_table(file_sloc_pairs)]: the texts it hands to [print],
    in order, one per call.  What the output stream makes of a text (a
    text holding a line feed shows as two lines, a text the stream cannot
    encode makes [print] raise) is not part of the model. *)
Definition print_sloc_table (file_sloc_pairs : list (text * nat)) : list text :=
  let st0 := {| printed := [header; rule]; total_sloc := 0 |} in
  let st := fold_left report_body file_sloc_pairs st0 in
  printed st ++ [rule; format_row (txt "Total") (int_text (total_sloc st))].

End Reporter.
Import Reporter.

(** ** The entry point *)

Module Main.

(** [l.sort(key=lambda x: x[1], reverse=True)]: Python's sort is stable,
    also under [reverse=True], so the result is the one a stable insertion
    sort by descending key gives. *)
Fixpoint insert_desc (x : text * nat) (l : list (text * nat))
  : list (text * nat) :=
  match l with
  | [] => [x]
  | y :: l' => if snd x <? snd y then y :: insert_desc x l' else x :: l
  end.

Definition sort_desc (l : list (text * nat)) : list (text * nat) :=
  fold_right insert_desc [] l.

Definition prompt : text := txt "Enter the directory path to scan: ".

(** What a run hands to the standard output, the prompt first, and the
    exception with which the scan ended the run, if it did.  Exceptions
    of [input] and [print] themselves are not part of the model. *)
Record outcome : Type := Outcome {
  stdout : list text;
  raised : option exn
}.

Section Run.

Variable os_path_join : text -> text -> text.

(** The [__main__] block: [directory_to_scan] is the line read from the
    standard input and [es] what the file system holds below it. *)
Definition main (directory_to_scan : text) (es : tree) : outcome :=
  match count_sloc_in_directory os_path_join directory_to_scan es with
  | Raise e => {| stdout := [prompt]; raised := Some e |}
  | Ok file_sloc_pairs =>
    {| stdout := prompt :: print_sloc_table (sort_desc file_sloc_pairs);
       raised := None |}
  end.

End Run.

End Main.
Import Main.

(** * Files and lines, as the properties below speak of them *)

Module ClassifierSpec.

(** A file of the file system that opens, decodes and has these lines. *)
Definition file_has_lines (fs_open : text -> result (list byte))
    (file_path : text) (lines : list text) : Prop :=
  exists content s,
    fs_open file_path = Ok content /\ decode content = Some s /\
    file_lines s = lines.

(** A file system with a single readable file, for examples. *)
Definition one_file (content : list byte) : text -> result (list byte) :=
  fun _ => Ok content.

(** The three kinds of line the loop tells apart outside a block comment. *)
Definition skipped (line : text) : bool :=
  is_empty (strip line) || startswith (txt "//") (strip line).

Definition opens_block (line : text) : bool :=
  startswith (txt "/*") (strip line).

Definition closes_block (line : text) : bool :=
  contains (txt "*/") (strip line).

Definition is_code (line : text) : bool :=
  negb (skipped line) && negb (opens_block line).

(** A line as the iterator yields it, without its line end. *)
Definition chomp (line : text) : text :=
  match List.rev line with
  | c :: r => if (c =? LF)%N then List.rev r else line
  | [] => line
  end.

Definition scenario : list text := List.map txt
  ["// header comment"; "using System;"; ""; "/* block"; "   comment */";
   "class A {"; "    int x = 1;"; "}"]%string.

(** The scenario as a file, with LF line ends. *)
Definition scenario_file : string :=
  "// header comment
using System;

/* block
   comment */
class A {
    int x = 1;
}
".

(** Example files. *)
Definition comments_only_file : string :=
  "// first

    // second, after a blank line and before a line of spaces
   ".

Definition one_line_block_file : string :=
  "/* comment */
int x = 1;".

Definition block_file : string :=
  "int before;
/* opens
still inside
closes */ int lost;
int after;".

(** The kinds of line of the specification, on the trimmed text. *)
Definition blank (line : text) : Prop := strip line = [].

Definition line_comment (line : text) : Prop :=
  startswith (txt "//") (strip line) = true.

Definition block_open (line : text) : Prop :=
  startswith (txt "/*") (strip line) = true.

Definition block_close (line : text) : Prop :=
  contains (txt "*/") (strip line) = true.

Definition code (line : text) : Prop :=
  ~ blank line /\ ~ line_comment line /\ ~ block_open line.

(** A block comment, in the words of the specification, spans from an
    opening token to the next closing token.  [scan_tokens inside s] reads
    the trimmed text [s] of a line from left to right, starting inside a
    block comment or outside, and returns whether an opening token was
    met outside a comment, and whether the line ends inside a comment. *)
Fixpoint scan_tokens (inside : bool) (s : text) : bool * bool :=
  match s with
  | _ :: ((_ :: r) as s') =>
    if inside then
      if startswith (txt "*/") s then scan_tokens false r
      else scan_tokens true s'
    else
      if startswith (txt "/*") s then (true, snd (scan_tokens true r))
      else scan_tokens false s'
  | _ => (false, inside)
  end.

(** The lines of code in the words of the specification: a line counts
    when it is not blank, is not a single-line comment, and is neither
    inside a block comment nor delimits one (it does not start inside a
    comment and holds no opening token).  The state is whether the next
    line starts inside a block comment, and the lines counted so far. *)
Definition spec_step (st : bool * nat) (line : text) : bool * nat :=
  let s := strip line in
  if fst st then (snd (scan_tokens true s), snd st)
  else if is_empty s || startswith (txt "//") s then (false, snd st)
  else if fst (scan_tokens false s) then (snd (scan_tokens false s), snd st)
  else (false, S (snd st)).

Definition spec_code_lines (lines : list text) : nat :=
  snd (fold_left spec_step lines (false, 0)).

(** [plain_layout lines n]: read from the top, the file is made of blank
    lines, single-line comments, [n] lines of code that hold no opening
    token, and block comments that stand on lines of their own: an
    opening line that starts with the opening token and ends inside the
    comment, lines without the closing token, and the first line with
    it, at whose end no comment is open; or, at the end of the file, an
    opening line and lines without the closing token. *)
Inductive plain_layout : list text -> nat -> Prop :=
| plain_end : plain_layout [] 0
| plain_blank line rest n :
    blank line -> plain_layout rest n ->
    plain_layout (line :: rest) n
| plain_line_comment line rest n :
    line_comment line -> plain_layout rest n ->
    plain_layout (line :: rest) n
| plain_block opener inside closer rest n :
    block_open opener ->
    snd (scan_tokens false (strip opener)) = true ->
    Forall (fun l => ~ block_close l) inside ->
    block_close closer ->
    snd (scan_tokens true (strip closer)) = false ->
    plain_layout rest n ->
    plain_layout (opener :: inside ++ closer :: rest) n
| plain_unclosed_block opener inside :
    block_open opener ->
    snd (scan_tokens false (strip opener)) = true ->
    Forall (fun l => ~ block_close l) inside ->
    plain_layout (opener :: inside) 0
| plain_code line rest n :
    code line -> contains (txt "/*") (strip line) = false ->
    plain_layout rest n ->
    plain_layout (line :: rest) (S n).

(** A block comment that opens after code on its line. *)
Definition late_opener_lines : list text :=
  [txt "int x; /* start"; txt "still comment"; txt "end */"].

(** A block comment that opens on the line that closes another. *)
Definition reopened_lines : list text :=
  [txt "/* first"; txt "ends */ /* second"; txt "int y;"; txt "*/"].

End ClassifierSpec.
Import ClassifierSpec.

(** * The table, as the properties below speak of it *)

Module ReporterSpec.

(** The row printed for one pair. *)
Definition data_row (pair : text * nat) : text :=
  format_row (fst pair) (int_text (snd pair)).

(** The sum of the counts of a sequence of pairs. *)
Definition sum_counts (pairs : list (text * nat)) : nat :=
  list_sum (List.map snd pairs).

(** The last row of the table. *)
Definition total_row (pairs : list (text * nat)) : text :=
  format_row (txt "Total") (int_text (sum_counts pairs)).

(** A column of fixed width as the specification words it: the text is
    padded when it is shorter than the column and cut when it is longer. *)
Definition fit (w : nat) (s : text) : text :=
  firstn w s ++ repeat space (w - List.length s).

(** The data row of the specification: a path column of width 60, padded
    or truncated, a space, and the count right-justified in width 10. *)
Definition claimed_row (pair : text * nat) : text :=
  fit 60 (fst pair) ++ space :: rjust 10 (int_text (snd pair)).

(** The characters of a decimal numeral. *)
Definition digit (c : char) : Prop := (48 <= c <= 57)%N.

(** A path of 61 characters. *)
Definition long_path : text :=
  txt "GxPT/Controls/Conversation/ConversationHistoryPanelPainter.cs".

End ReporterSpec.
Import ReporterSpec.

(** * The order of the rows, as the properties below speak of it *)

Module MainSpec.

(** [count_ge a b]: the pair [a] may stand above the pair [b]. *)
Definition count_ge (a b : text * nat) : Prop := snd b <= snd a.

(** The pairs with a given count, in the order they have in the list. *)
Definition with_count (k : nat) (l : list (text * nat)) : list (text * nat) :=
  filter (fun pair => snd pair =? k) l.

(** The scenario of the specification: two files with 10 and 3 lines. *)
Definition two_files : list (text * nat) :=
  [(txt "B.cs", 3); (txt "A.cs", 10)].

End MainSpec.
Import MainSpec.

(** * The files below a directory, as the properties below speak of them *)

Module WalkerSpec.

(** A file found below the scanned directory: its name, the path the
    walker builds for it, and its bytes. *)
Record found : Type := Found {
  found_name : text;
  found_path : text;
  found_content : list byte
}.

(** The suffix filter. *)
Definition is_cs (f : found) : bool := endswith (txt ".cs") (found_name f).

(** What the classifier makes of the bytes of a file. *)
Definition classify (content : list byte) : result nat :=
  match decode content with
  | None => Raise UnicodeDecodeError
  | Some s => Ok (count_sloc_lines (file_lines s))
  end.

(** The pairs of a sequence of files, or the first exception met. *)
Fixpoint collect (fs : list found) (acc : list (text * nat))
  : result (list (text * nat)) :=
  match fs with
  | [] => Ok acc
  | f :: fs' =>
    n <- classify (found_content f) ;;
    collect fs' (acc ++ [(found_path f, n)])
  end.

(** [open_] finds each of these files at its path. *)
Definition opens (open_ : text -> result (list byte)) (fs : list found)
  : Prop :=
  forall f, In f fs -> open_ (found_path f) = Ok (found_content f).

Section Below.

Variable os_path_join : text -> text -> text.

(** [file_below top es f]: [f] is a file of the directory [top], whose
    entries are [es], or of a directory below it, at any depth. *)
Inductive file_below : text -> tree -> found -> Prop :=
| file_here top es name content :
    In (File name content) es ->
    file_below top es (Found name (os_path_join top name) content)
| file_deeper top es name children f :
    In (Dir name children) es ->
    file_below (os_path_join top name) children f ->
    file_below top es f.

(** The files of one directory, in listing order. *)
Definition here_files (top : text) (es : tree) : list found :=
  flat_map (fun e => match e with
                     | File name content =>
                       [Found name (os_path_join top name) content]
                     | Dir _ _ => []
                     end) es.

(** The files below a directory in the order of the walk: those of the
    directory first, then those below each subdirectory in turn. *)
Fixpoint below_entry (top : text) (e : entry) : list found :=
  match e with
  | File _ _ => []
  | Dir name children =>
    let new_path := os_path_join top name in
    here_files new_path children ++ flat_map (below_entry new_path) children
  end.

Definition files_below (top : text) (es : tree) : list found :=
  here_files top es ++ flat_map (below_entry top) es.

End Below.

(** Two example trees; [broken.cs] of the second holds the byte 0xFF,
    which no UTF-8 text contains. *)
Definition sample_tree : tree :=
  [File (txt "A.cs") (encode_ascii "int a;
// comment
int b;");
   File (txt "notes.txt") (encode_ascii "not scanned");
   Dir (txt "sub")
     [File (txt "B.cs") (encode_ascii "/* block
*/
class B {
  int x;
}");
      File (txt "B.cs.bak") (encode_ascii "int old;")]].

Definition broken_tree : tree :=
  [File (txt "A.cs") (encode_ascii "int a;");
   Dir (txt "sub") [File (txt "broken.cs") [Byte.x69; Byte.xff]]].

End WalkerSpec.
Import WalkerSpec.

(** * Further notions about lines and files *)

Module MoreSpec.

(** A text made of white space only. *)
Definition all_space (ws : text) : Prop :=
  Forall (fun c => isspace c = true) ws.

(** [reindented l l']: [l'] is [l] with white space added at its ends. *)
Definition reindented (l l' : text) : Prop :=
  exists ws1 ws2, all_space ws1 /\ all_space ws2 /\ l' = ws1 ++ l ++ ws2.

(** The three line ends universal newlines knows. *)
Definition line_end (eol : text) : Prop :=
  eol = [LF] \/ eol = [CR; LF] \/ eol = [CR].

(** A line of text holds no line end of its own. *)
Definition no_line_end (l : text) : Prop :=
  Forall (fun c => c <> LF /\ c <> CR) l.

(** The text of a file whose lines all close with the line end [eol]. *)
Definition join_lines (eol : text) (ls : list text) : text :=
  List.concat (List.map (fun l => l ++ eol) ls).

(** A line that is not empty once trimmed. *)
Definition nonblank (line : text) : bool := negb (is_empty (strip line)).

(** A file of three lines with CR LF line ends and a last line without
    a line end. *)
Definition crlf_lines : list text := [txt "int a;"; txt "  // c"; txt "int b;"].

Definition crlf_file : list byte :=
  List.concat
    (List.map (fun l => l ++ [Byte.x0d; Byte.x0a])
       [encode_ascii "int a;"; encode_ascii "  // c"; encode_ascii "int b;"])
  ++ encode_ascii "int c;".

(** A tree without any [.cs] file; [blob.bin] is not valid UTF-8. *)
Definition no_cs_tree : tree :=
  [File (txt "README.md") (encode_ascii "docs");
   Dir (txt "bin") [File (txt "blob.bin") [Byte.xff; Byte.xfe];
                    File (txt "A.CS") (encode_ascii "int a;")]].

(** Example lines. *)
Definition three_lines : list text :=
  [txt "class A {"; txt "  int x; /* not an opener"; txt "}"].

End MoreSpec.
Import MoreSpec.

(** * Properties of the string methods *)

Module TextFacts.

Lemma startswith_iff prefix : forall s,
  startswith prefix s = true <-> exists r, s = prefix ++ r.
Proof.
  induction prefix as [|p prefix IH]; intros s.
  - simpl. split; eauto.
  - destruct s as [|c s]; simpl.
    + split; [discriminate | intros [r Hr]; discriminate Hr].
    + rewrite andb_true_iff, N.eqb_eq, IH. split.
      * intros [-> [r ->]]. eauto.
      * intros [r Hr]. injection Hr as -> ->. eauto.
Qed.

Lemma contains_iff sub s :
  contains sub s = true <-> exists a b, s = a ++ sub ++ b.
Proof.
  induction s as [|c s IH]; simpl; rewrite orb_true_iff, startswith_iff.
  - split.
    + intros [[r Hr] | H]; [|discriminate H]. exists [], r. exact Hr.
    + intros (a & b & H). left.
      destruct a; [|discriminate H]. exists b. exact H.
  - rewrite IH. split.
    + intros [[r Hr] | (a & b & ->)].
      * exists [], r. exact Hr.
      * exists (c :: a), b. reflexivity.
    + intros ([|c' a] & b & H).
      * left. exists b. exact H.
      * right. injection H as _ ->. eauto.
Qed.

Lemma contains_rev sub s :
  contains (List.rev sub) (List.rev s) = contains sub s.
Proof.
  apply eq_true_iff_eq. rewrite !contains_iff. split.
  - intros (a & b & H). exists (List.rev b), (List.rev a).
    rewrite <- (rev_involutive s), H, !rev_app_distr, rev_involutive.
    now rewrite app_assoc.
  - intros (a & b & ->). exists (List.rev b), (List.rev a).
    rewrite !rev_app_distr. now rewrite app_assoc.
Qed.

Lemma lstrip_split s :
  exists ws, Forall (fun c => isspace c = true) ws /\ s = ws ++ lstrip s.
Proof.
  induction s as [|c s (ws & Hws & Hs)]; [exists []; auto|].
  simpl. destruct (isspace c) eqn:E.
  - exists (c :: ws). split; [now constructor | simpl; now f_equal].
  - exists []. auto.
Qed.

Lemma contains_after_spaces c sub ws t :
  isspace c = false -> Forall (fun w => isspace w = true) ws ->
  contains (c :: sub) (ws ++ t) = contains (c :: sub) t.
Proof.
  intros Hc. induction 1 as [|w ws Hw _ IH]; [reflexivity|].
  simpl app. simpl contains at 1. rewrite IH.
  simpl startswith. destruct (c =? w)%N eqn:E; [|reflexivity].
  apply N.eqb_eq in E. congruence.
Qed.

Lemma contains_lstrip c sub s :
  isspace c = false -> contains (c :: sub) (lstrip s) = contains (c :: sub) s.
Proof.
  intros Hc. destruct (lstrip_split s) as (ws & Hws & Hs).
  rewrite Hs at 2. symmetry. now apply contains_after_spaces.
Qed.

(** Trimming keeps a token that neither starts nor ends with a space. *)
Lemma contains_strip c d s :
  isspace c = false -> isspace d = false ->
  contains [c; d] (strip s) = contains [c; d] s.
Proof.
  intros Hc Hd. unfold strip, rstrip.
  rewrite <- contains_rev, rev_involutive.
  change (List.rev [c; d]) with [d; c].
  rewrite contains_lstrip by exact Hd.
  change [d; c] with (List.rev [c; d]).
  rewrite contains_rev. now apply contains_lstrip.
Qed.

(** The close token is searched in the whole line: trimming changes
    nothing to the search. *)
Lemma close_token_anywhere line :
  contains (txt "*/") (strip line) = true <->
  exists a b, line = a ++ txt "*/" ++ b.
Proof.
  change (txt "*/") with [42%N; 47%N].
  rewrite contains_strip by reflexivity. apply contains_iff.
Qed.

(** *** The model of the runtime on small inputs *)

Example strip_unicode_spaces :
  strip ([160; 9; 12288] ++ txt "x y" ++ [133; 10])%N = txt "x y".
Proof. reflexivity. Qed.

Example strip_keeps_bom : strip (65279%N :: txt "// c") = 65279%N :: txt "// c".
Proof. reflexivity. Qed.

Example decode_two_three_four_bytes :
  decode [Byte.xc3; Byte.xa9; Byte.xe2; Byte.x82; Byte.xac;
          Byte.xf0; Byte.x9f; Byte.x98; Byte.x80]
  = Some [233; 8364; 128512]%N.
Proof. reflexivity. Qed.

Example decode_rejects_overlong_surrogate_truncated :
  decode [Byte.xc0; Byte.x80] = None /\
  decode [Byte.xed; Byte.xa0; Byte.x80] = None /\
  decode [Byte.xe2; Byte.x82] = None /\
  decode [Byte.xf4; Byte.x90; Byte.x80; Byte.x80] = None.
Proof. repeat split. Qed.

Example lines_of_mixed_line_ends :
  file_lines ([97; 13; 10; 98; 13; 99; 10; 10; 100])%N
  = [[97; 10]; [98; 10]; [99; 10]; [10]; [100]]%N.
Proof. reflexivity. Qed.

Example endswith_cs :
  endswith (txt ".cs") (txt "A.cs") = true /\
  endswith (txt ".cs") (txt "A.cs.bak") = false /\
  endswith (txt ".cs") (txt "cs") = false /\
  endswith (txt ".cs") (txt ".cs") = true.
Proof. repeat split. Qed.

Example posix_join_cases :
  posix_join (txt "repo") (txt "A.cs") = txt "repo/A.cs" /\
  posix_join (txt "repo/") (txt "A.cs") = txt "repo/A.cs" /\
  posix_join [] (txt "A.cs") = txt "A.cs".
Proof. repeat split. Qed.

End TextFacts.

(** * Properties of the classifier *)

Module ClassifierFacts.

Lemma count_sloc_in_file_lines fs_open file_path lines :
  file_has_lines fs_open file_path lines ->
  count_sloc_in_file fs_open file_path = Ok (count_sloc_lines lines).
Proof.
  intros (content & s & Hopen & Hdec & Hlines).
  unfold count_sloc_in_file. rewrite Hopen. simpl.
  rewrite Hdec, Hlines. reflexivity.
Qed.

Lemma one_file_has_lines content s path :
  decode content = Some s ->
  file_has_lines (one_file content) path (file_lines s).
Proof. intros H. exists content, s. auto. Qed.

(** *** The loop, line by line *)

Lemma run_loop_nil st : run_loop st [] = st.
Proof. reflexivity. Qed.

Lemma run_loop_cons st line lines :
  run_loop st (line :: lines) = run_loop (loop_body st line) lines.
Proof. reflexivity. Qed.

Lemma run_loop_app st xs ys :
  run_loop st (xs ++ ys) = run_loop (run_loop st xs) ys.
Proof. apply fold_left_app. Qed.

Lemma loop_state_eta st :
  st = {| in_block_comment := in_block_comment st; sloc := sloc st |}.
Proof. destruct st; reflexivity. Qed.

Lemma startswith_two a b s :
  startswith [a; b] s = true -> exists r, s = a :: b :: r.
Proof.
  destruct s as [|c [|d r]]; simpl; try discriminate.
  - rewrite andb_false_r. discriminate.
  - rewrite andb_true_r. intros H. apply andb_true_iff in H as [Ha Hb].
    apply N.eqb_eq in Ha, Hb. subst. eauto.
Qed.

Lemma opens_block_not_skipped line :
  opens_block line = true -> skipped line = false.
Proof.
  unfold opens_block, skipped. intros H.
  apply (startswith_two 47%N 42%N) in H as [r Hr]. rewrite Hr. reflexivity.
Qed.

Lemma body_in_block st line :
  in_block_comment st = true ->
  loop_body st line =
    {| in_block_comment := negb (closes_block line); sloc := sloc st |}.
Proof.
  intros H. unfold loop_body, closes_block. rewrite H.
  destruct (contains _ _); simpl; [reflexivity|].
  rewrite (loop_state_eta st) at 1. rewrite H. reflexivity.
Qed.

Lemma body_skipped st line :
  in_block_comment st = false -> skipped line = true -> loop_body st line = st.
Proof.
  intros H Hs. unfold loop_body. rewrite H. fold (skipped line).
  rewrite Hs. reflexivity.
Qed.

Lemma body_opens st line :
  in_block_comment st = false -> opens_block line = true ->
  loop_body st line = {| in_block_comment := true; sloc := sloc st |}.
Proof.
  intros H Ho. unfold loop_body. rewrite H. fold (skipped line).
  rewrite (opens_block_not_skipped _ Ho). fold (opens_block line).
  rewrite Ho. reflexivity.
Qed.

Lemma body_code st line :
  in_block_comment st = false -> is_code line = true ->
  loop_body st line = {| in_block_comment := false; sloc := S (sloc st) |}.
Proof.
  intros H Hc. unfold is_code in Hc. apply andb_true_iff in Hc as [Hs Ho].
  apply negb_true_iff in Hs, Ho.
  unfold loop_body. rewrite H. fold (skipped line). rewrite Hs.
  fold (opens_block line). rewrite Ho. reflexivity.
Qed.

(** Lines without the close token keep the loop inside the comment. *)
Lemma run_inside st inside :
  in_block_comment st = true ->
  Forall (fun l => closes_block l = false) inside ->
  run_loop st inside = st.
Proof.
  intros Hst H. induction H as [|l ls Hl _ IH]; [reflexivity|].
  rewrite run_loop_cons, (body_in_block _ _ Hst), Hl. simpl.
  replace {| in_block_comment := true; sloc := sloc st |} with st; [exact IH|].
  rewrite (loop_state_eta st) at 1. rewrite Hst. reflexivity.
Qed.

(** A block comment, from its opening line to its closing line, leaves the
    state of the loop as it found it. *)
Lemma run_block st opener inside closer :
  in_block_comment st = false ->
  opens_block opener = true ->
  Forall (fun l => closes_block l = false) inside ->
  closes_block closer = true ->
  run_loop st (opener :: inside ++ [closer]) = st.
Proof.
  intros Hst Ho Hin Hc.
  rewrite run_loop_cons, (body_opens _ _ Hst Ho), run_loop_app.
  rewrite (@run_inside {| in_block_comment := true; sloc := sloc st |}
             inside eq_refl Hin).
  rewrite run_loop_cons, body_in_block by reflexivity.
  rewrite Hc. simpl. rewrite (loop_state_eta st) at 2. rewrite Hst.
  reflexivity.
Qed.

(** A block comment that is never closed swallows the rest of the file. *)
Lemma run_open_block st opener inside :
  in_block_comment st = false ->
  opens_block opener = true ->
  Forall (fun l => closes_block l = false) inside ->
  run_loop st (opener :: inside) =
    {| in_block_comment := true; sloc := sloc st |}.
Proof.
  intros Hst Ho Hin.
  rewrite run_loop_cons, (body_opens _ _ Hst Ho).
  apply run_inside; auto.
Qed.

(** *** Blank lines and single-line comments *)

Lemma run_skipped st lines :
  in_block_comment st = false ->
  Forall (fun l => skipped l = true) lines ->
  run_loop st lines = st.
Proof.
  intros Hst H. induction H as [|l ls Hl _ IH]; [reflexivity|].
  rewrite run_loop_cons, body_skipped; auto.
Qed.

Lemma skipped_iff line :
  skipped line = true <->
  strip line = [] \/ startswith (txt "//") (strip line) = true.
Proof.
  unfold skipped. rewrite orb_true_iff.
  destruct (strip line); simpl; intuition congruence.
Qed.

(** C9: a file with no line at all, and a file whose every line is blank
    once trimmed or starts with [//] once trimmed, has 0 source lines. *)
Theorem no_lines_or_only_blank_and_line_comments_count_zero :
  forall fs_open file_path lines,
    file_has_lines fs_open file_path lines ->
    lines = [] \/
    Forall (fun l => strip l = [] \/ startswith (txt "//") (strip l) = true)
           lines ->
    count_sloc_in_file fs_open file_path = Ok 0.
Proof.
  intros fs_open file_path lines Hfile Hall.
  rewrite (count_sloc_in_file_lines Hfile). f_equal.
  destruct Hall as [-> | Hall]; [reflexivity|].
  unfold count_sloc_lines. rewrite run_skipped; auto.
  eapply Forall_impl; [|exact Hall]. intros l Hl. now apply skipped_iff.
Qed.

(** *** Line ends do not matter *)

Lemma lstrip_rev_space c s :
  isspace c = true -> rstrip (s ++ [c]) = rstrip s.
Proof.
  intros Hc. unfold rstrip. rewrite rev_app_distr. simpl. now rewrite Hc.
Qed.

Lemma strip_app_space c s :
  isspace c = true -> strip (s ++ [c]) = strip s.
Proof.
  intros Hc. unfold strip. induction s as [|c0 s IH].
  - simpl. now rewrite Hc.
  - simpl. destruct (isspace c0) eqn:E0; [exact IH|].
    change (c0 :: s ++ [c]) with ((c0 :: s) ++ [c]).
    now apply lstrip_rev_space.
Qed.

Lemma strip_chomp line : strip (chomp line) = strip line.
Proof.
  unfold chomp. destruct (List.rev line) as [|c r] eqn:E; [reflexivity|].
  destruct (c =? LF)%N eqn:Ec; [|reflexivity].
  apply N.eqb_eq in Ec. subst c.
  assert (Hl : line = List.rev r ++ [LF]).
  { rewrite <- (rev_involutive line), E. reflexivity. }
  rewrite Hl. symmetry. now apply strip_app_space.
Qed.

Lemma loop_body_strip st l l' :
  strip l = strip l' -> loop_body st l = loop_body st l'.
Proof. intros H. unfold loop_body. now rewrite H. Qed.

Lemma run_loop_strip lines : forall lines' st,
  List.map strip lines = List.map strip lines' ->
  run_loop st lines = run_loop st lines'.
Proof.
  induction lines as [|l ls IH]; intros [|l' ls'] st H; try discriminate.
  - reflexivity.
  - simpl in H. injection H as Hl Hls.
    rewrite !run_loop_cons, (loop_body_strip st _ _ Hl). now apply IH.
Qed.

Lemma count_sloc_lines_chomp lines :
  count_sloc_lines lines = count_sloc_lines (List.map chomp lines).
Proof.
  unfold count_sloc_lines. f_equal. apply run_loop_strip.
  rewrite map_map. apply map_ext. intros l. now rewrite strip_chomp.
Qed.

(** *** The scenario of the specification *)

(** C1: a file whose lines are those of the scenario has 4 source lines. *)
Theorem scenario_file_counts_four :
  forall fs_open file_path lines,
    file_has_lines fs_open file_path lines ->
    List.map chomp lines = scenario ->
    count_sloc_in_file fs_open file_path = Ok 4.
Proof.
  intros fs_open file_path lines Hfile Hlines.
  rewrite (count_sloc_in_file_lines Hfile), count_sloc_lines_chomp, Hlines.
  reflexivity.
Qed.

(** *** Block comments *)


Lemma firstn_inside (inside : list text) closer k :
  k <= List.length inside -> firstn k (inside ++ [closer]) = firstn k inside.
Proof.
  intros Hk. rewrite firstn_app.
  replace (k - List.length inside) with 0 by lia.
  simpl. apply app_nil_r.
Qed.

(** The state after [k] lines of a block comment, for [k] short of its
    closing line: inside the comment, with the count untouched. *)
Lemma run_block_prefix st opener inside closer k :
  in_block_comment st = false ->
  opens_block opener = true ->
  Forall (fun l => closes_block l = false) inside ->
  0 < k <= List.length inside + 1 ->
  run_loop st (firstn k (opener :: inside ++ [closer])) =
    {| in_block_comment := true; sloc := sloc st |}.
Proof.
  intros Hst Ho Hin Hk. destruct k as [|j]; [lia|].
  simpl firstn. rewrite firstn_inside by lia.
  apply run_open_block; auto.
  apply Forall_forall. intros l Hl.
  rewrite Forall_forall in Hin. apply Hin.
  rewrite <- (firstn_skipn j inside). apply in_or_app. now left.
Qed.

(** C3: when a line whose trimmed text starts with the open token is met
    outside a block comment, no line from it to the first later line whose
    trimmed text holds the close token, both included, is counted; between
    the two the loop is inside the comment, and after the closing line,
    whatever follows the close token on it, the loop is outside again with
    the count it had before the opening line. *)
Theorem block_comment_lines_are_not_counted :
  forall before opener inside closer after,
    in_block_comment (run_loop initial before) = false ->
    startswith (txt "/*") (strip opener) = true ->
    Forall (fun l => contains (txt "*/") (strip l) = false) inside ->
    contains (txt "*/") (strip closer) = true ->
    let block := opener :: inside ++ [closer] in
    (forall k, k <= List.length block ->
       sloc (run_loop initial (before ++ firstn k block)) =
       sloc (run_loop initial before)) /\
    (forall k, 0 < k < List.length block ->
       in_block_comment (run_loop initial (before ++ firstn k block)) = true) /\
    run_loop initial (before ++ block) = run_loop initial before /\
    run_loop initial (before ++ block ++ after) =
      run_loop (run_loop initial before) after /\
    count_sloc_lines (before ++ block ++ after) =
      count_sloc_lines (before ++ after) /\
    (exists text_before text_after,
       closer = text_before ++ txt "*/" ++ text_after) /\
    (forall text_before text_after,
       contains (txt "*/")
                (strip (text_before ++ txt "*/" ++ text_after)) = true).
Proof.
  intros before opener inside closer after Hst Ho Hin Hc block.
  assert (Hlen : List.length block = List.length inside + 2).
  { unfold block. simpl. rewrite length_app. simpl. lia. }
  assert (Hblock : run_loop (run_loop initial before) block
                   = run_loop initial before).
  { now apply run_block. }
  repeat split.
  - intros k Hk. rewrite run_loop_app.
    destruct (Nat.eq_dec k 0) as [-> | Hk0]; [reflexivity|].
    destruct (Nat.eq_dec k (List.length block)) as [-> | Hkl].
    + rewrite firstn_all. now rewrite Hblock.
    + unfold block. rewrite run_block_prefix; auto. lia.
  - intros k Hk. rewrite run_loop_app.
    unfold block. rewrite run_block_prefix; auto. lia.
  - rewrite run_loop_app. exact Hblock.
  - rewrite !run_loop_app. now rewrite Hblock.
  - unfold count_sloc_lines. rewrite !run_loop_app. now rewrite Hblock.
  - now apply TextFacts.close_token_anywhere.
  - intros a b. apply TextFacts.close_token_anywhere. eauto.
Qed.

(** *** Lines of code among comments and blank lines *)

Lemma not_close_false inside :
  Forall (fun l => ~ block_close l) inside ->
  Forall (fun l => closes_block l = false) inside.
Proof.
  apply Forall_impl. intros l Hl. now apply not_true_is_false.
Qed.

Lemma code_is_code line : code line -> is_code line = true.
Proof.
  intros (Hb & Hc & Ho). unfold is_code.
  apply andb_true_iff; split; apply negb_true_iff; apply not_true_is_false.
  - rewrite skipped_iff. intros [H | H]; [now apply Hb | now apply Hc].
  - exact Ho.
Qed.

Lemma run_plain_layout lines n :
  plain_layout lines n ->
  forall st, in_block_comment st = false ->
  sloc (run_loop st lines) = sloc st + n.
Proof.
  induction 1 as [ | line rest n Hb _ IH | line rest n Hc _ IH
                 | opener inside closer rest n Ho _ Hin Hc _ _ IH
                 | opener inside Ho _ Hin | line rest n Hcode _ _ IH ];
    intros st Hst.
  - simpl. lia.
  - rewrite run_loop_cons, body_skipped; auto.
    apply skipped_iff. now left.
  - rewrite run_loop_cons, body_skipped; auto.
    apply skipped_iff. now right.
  - replace (opener :: inside ++ closer :: rest)
      with ((opener :: inside ++ [closer]) ++ rest)
      by (simpl; now rewrite <- app_assoc).
    rewrite run_loop_app, run_block; auto using not_close_false.
  - rewrite run_open_block; auto using not_close_false.
  - rewrite run_loop_cons, (body_code _ _ Hst (code_is_code Hcode)).
    rewrite IH by reflexivity. simpl. lia.
Qed.

(** The scan of a line for the tokens of block comments. *)
Lemma scan_tokens_two inside c1 c2 r :
  scan_tokens inside (c1 :: c2 :: r) =
    if inside then
      if startswith (txt "*/") (c1 :: c2 :: r) then scan_tokens false r
      else scan_tokens true (c2 :: r)
    else
      if startswith (txt "/*") (c1 :: c2 :: r)
      then (true, snd (scan_tokens true r))
      else scan_tokens false (c2 :: r).
Proof. reflexivity. Qed.

Lemma contains_cons sub c s :
  contains sub (c :: s) = startswith sub (c :: s) || contains sub s.
Proof. reflexivity. Qed.

Lemma scan_without_open_token s :
  contains (txt "/*") s = false -> scan_tokens false s = (false, false).
Proof.
  induction s as [|c1 s IH]; intros H; [reflexivity|].
  destruct s as [|c2 r]; [reflexivity|].
  rewrite contains_cons in H. apply orb_false_iff in H as [H1 H2].
  rewrite scan_tokens_two, H1. now apply IH.
Qed.

Lemma scan_without_close_token s :
  contains (txt "*/") s = false -> scan_tokens true s = (false, true).
Proof.
  induction s as [|c1 s IH]; intros H; [reflexivity|].
  destruct s as [|c2 r]; [reflexivity|].
  rewrite contains_cons in H. apply orb_false_iff in H as [H1 H2].
  rewrite scan_tokens_two, H1. now apply IH.
Qed.

Lemma scan_opening_line s :
  startswith (txt "/*") s = true -> fst (scan_tokens false s) = true.
Proof.
  intros Ho. destruct (startswith_two _ _ _ Ho) as [r ->].
  now rewrite scan_tokens_two, Ho.
Qed.

Lemma spec_step_skipped m line :
  skipped line = true -> spec_step (false, m) line = (false, m).
Proof.
  intros H. unfold spec_step. simpl fst. simpl snd. cbv zeta.
  fold (skipped line). now rewrite H.
Qed.

Lemma spec_step_code m line :
  code line -> contains (txt "/*") (strip line) = false ->
  spec_step (false, m) line = (false, S m).
Proof.
  intros Hcode Hno. pose proof (code_is_code Hcode) as Hc.
  unfold is_code in Hc. apply andb_true_iff in Hc as [Hs _].
  apply negb_true_iff in Hs.
  unfold spec_step. simpl fst. simpl snd. cbv zeta.
  fold (skipped line). rewrite Hs.
  now rewrite (scan_without_open_token _ Hno).
Qed.

Lemma spec_step_opening m line :
  block_open line -> snd (scan_tokens false (strip line)) = true ->
  spec_step (false, m) line = (true, m).
Proof.
  intros Ho Hend.
  unfold spec_step. simpl fst. simpl snd. cbv zeta.
  fold (skipped line). rewrite (opens_block_not_skipped _ Ho).
  now rewrite (scan_opening_line _ Ho), Hend.
Qed.

Lemma spec_step_inside m line :
  ~ block_close line -> spec_step (true, m) line = (true, m).
Proof.
  intros Hc. apply not_true_is_false in Hc.
  unfold spec_step. simpl fst. simpl snd. cbv zeta.
  now rewrite (scan_without_close_token _ Hc).
Qed.

Lemma spec_run_inside m inside :
  Forall (fun l => ~ block_close l) inside ->
  fold_left spec_step inside (true, m) = (true, m).
Proof.
  induction 1 as [|l ls Hl _ IH]; [reflexivity|].
  simpl. now rewrite spec_step_inside.
Qed.

Lemma spec_plain_layout lines n :
  plain_layout lines n ->
  forall m, snd (fold_left spec_step lines (false, m)) = m + n.
Proof.
  induction 1 as [ | line rest n Hb _ IH | line rest n Hc _ IH
                 | opener inside closer rest n Ho Hoc Hin _ Hend _ IH
                 | opener inside Ho Hoc Hin | line rest n Hcode Hno _ IH ];
    intros m.
  - simpl. lia.
  - simpl. rewrite spec_step_skipped; [apply IH|].
    apply skipped_iff. now left.
  - simpl. rewrite spec_step_skipped; [apply IH|].
    apply skipped_iff. now right.
  - simpl. rewrite spec_step_opening by assumption.
    rewrite fold_left_app, spec_run_inside by assumption.
    simpl. unfold spec_step at 2. simpl fst. simpl snd. cbv zeta.
    rewrite Hend. apply IH.
  - simpl. rewrite spec_step_opening by assumption.
    rewrite spec_run_inside by assumption. simpl. lia.
  - simpl. rewrite spec_step_code by assumption. rewrite IH. lia.
Qed.

(** C2, as stated, fails.  In the file [/* comment */], [int x = 1;] the
    block comment runs from its opening token to its closing token on
    the first line, so the second line is a line of code, yet the count
    is 0.  In the file [int x; /* start], [still comment], [end */] the
    first line opens a block comment and the others are inside it or
    close it, yet all three are counted.  In the file [/* first],
    [ends */ /* second], [int y;], [*/] every line is inside a block
    comment or delimits one, yet the last two are counted. *)
Lemma comment_closed_on_its_opening_line_hides_code :
  (file_has_lines (one_file (encode_ascii one_line_block_file)) []
                  (file_lines (txt one_line_block_file)) /\
   spec_code_lines (file_lines (txt one_line_block_file)) = 1 /\
   count_sloc_in_file (one_file (encode_ascii one_line_block_file)) [] = Ok 0 /\
   count_sloc_in_file (one_file (encode_ascii one_line_block_file)) []
     <> Ok (spec_code_lines (file_lines (txt one_line_block_file)))) /\
  (spec_code_lines late_opener_lines = 0 /\
   count_sloc_lines late_opener_lines = 3) /\
  (spec_code_lines reopened_lines = 0 /\
   count_sloc_lines reopened_lines = 2).
Proof.
  split; [|repeat split; reflexivity].
  split; [apply one_file_has_lines; reflexivity|].
  split; [reflexivity|]. split; [reflexivity|].
  intros H. vm_compute in H. discriminate H.
Qed.

(** C2, amended: take a file made of blank lines, single-line comments,
    block comments that stand on lines of their own (the opening line
    starts with the opening token and ends inside the comment, and no
    comment is open at the end of the closing line) and [n] lines of
    code that hold no opening token, in any order.  The count is [n],
    and [n] is the number of lines that are neither blank, nor
    single-line comments, nor inside or delimiting a block comment. *)
Theorem code_lines_are_counted_when_comments_stand_apart :
  forall fs_open file_path lines n,
    file_has_lines fs_open file_path lines ->
    plain_layout lines n ->
    count_sloc_in_file fs_open file_path = Ok n /\
    spec_code_lines lines = n.
Proof.
  intros fs_open file_path lines n Hfile Hn. split.
  - rewrite (count_sloc_in_file_lines Hfile). f_equal.
    unfold count_sloc_lines.
    now rewrite (run_plain_layout Hn initial eq_refl).
  - unfold spec_code_lines. now rewrite (spec_plain_layout Hn 0).
Qed.

(** *** The theorems at work on example files *)

Ltac eval_in_goal t :=
  let v := eval vm_compute in t in change t with v.

Ltac each_line tac :=
  repeat first [ apply Forall_nil | apply Forall_cons; [tac|] ].

Lemma no_lines_or_only_blank_and_line_comments_count_zero_witness :
  let fs := one_file (encode_ascii comments_only_file) in
  let lines := file_lines (txt comments_only_file) in
  file_has_lines fs [] lines /\
  (lines = [] \/
   Forall (fun l => strip l = [] \/ startswith (txt "//") (strip l) = true)
          lines) /\
  count_sloc_in_file fs [] = Ok 0.
Proof.
  intros fs lines.
  assert (H1 : file_has_lines fs [] lines)
    by (apply one_file_has_lines; reflexivity).
  assert (H2 : lines = [] \/
               Forall (fun l => strip l = [] \/
                                startswith (txt "//") (strip l) = true) lines).
  { right. subst lines. eval_in_goal (file_lines (txt comments_only_file)).
    each_line ltac:(first [left; reflexivity | right; reflexivity]). }
  exact (conj H1 (conj H2
    (no_lines_or_only_blank_and_line_comments_count_zero H1 H2))).
Defined.

Lemma scenario_file_counts_four_witness :
  let fs := one_file (encode_ascii scenario_file) in
  let lines := file_lines (txt scenario_file) in
  file_has_lines fs [] lines /\
  List.map chomp lines = scenario /\
  count_sloc_in_file fs [] = Ok 4.
Proof.
  intros fs lines.
  assert (H1 : file_has_lines fs [] lines)
    by (apply one_file_has_lines; reflexivity).
  assert (H2 : List.map chomp lines = scenario) by reflexivity.
  exact (conj H1 (conj H2 (scenario_file_counts_four H1 H2))).
Defined.


Lemma block_comment_lines_are_not_counted_witness :
  let before := [txt "int before;"] in
  let opener := txt "/* opens" in
  let inside := [txt "still inside"] in
  let closer := txt "closes */ int lost;" in
  let after := [txt "int after;"] in
  in_block_comment (run_loop initial before) = false /\
  startswith (txt "/*") (strip opener) = true /\
  Forall (fun l => contains (txt "*/") (strip l) = false) inside /\
  contains (txt "*/") (strip closer) = true /\
  count_sloc_lines (before ++ (opener :: inside ++ [closer]) ++ after) =
    count_sloc_lines (before ++ after).
Proof.
  intros before opener inside closer after.
  assert (H1 : in_block_comment (run_loop initial before) = false)
    by reflexivity.
  assert (H2 : startswith (txt "/*") (strip opener) = true) by reflexivity.
  assert (H3 : Forall (fun l => contains (txt "*/") (strip l) = false) inside)
    by (each_line reflexivity).
  assert (H4 : contains (txt "*/") (strip closer) = true) by reflexivity.
  exact (conj H1 (conj H2 (conj H3 (conj H4
    (proj1 (proj2 (proj2 (proj2 (proj2
      (@block_comment_lines_are_not_counted
         before opener inside closer after H1 H2 H3 H4)))))))))).
Defined.

Lemma code_lines_are_counted_when_comments_stand_apart_witness :
  let fs := one_file (encode_ascii block_file) in
  let lines := file_lines (txt block_file) in
  file_has_lines fs [] lines /\
  plain_layout lines 2 /\
  count_sloc_in_file fs [] = Ok 2 /\
  spec_code_lines lines = 2.
Proof.
  intros fs lines.
  assert (H1 : file_has_lines fs [] lines)
    by (apply one_file_has_lines; reflexivity).
  assert (H2 : plain_layout lines 2).
  { subst lines. eval_in_goal (file_lines (txt block_file)).
    apply plain_code;
      [repeat split; intros H; discriminate H | reflexivity |].
    refine (@plain_block _ [_] _ _ _ _ _ _ _ _ _);
      [ reflexivity | reflexivity
      | each_line ltac:(intros H; discriminate H)
      | reflexivity | reflexivity | ].
    apply plain_code;
      [repeat split; intros H; discriminate H | reflexivity |].
    apply plain_end. }
  exact (conj H1 (conj H2
    (code_lines_are_counted_when_comments_stand_apart H1 H2))).
Defined.

End ClassifierFacts.

(** * Properties of the reporter *)

Module ReporterFacts.

Lemma report_loop pairs : forall st,
  fold_left report_body pairs st =
    {| printed := printed st ++ List.map data_row pairs;
       total_sloc := total_sloc st + sum_counts pairs |}.
Proof.
  induction pairs as [|[file_path sloc] pairs IH]; intros [out total].
  - simpl. unfold sum_counts. simpl. now rewrite app_nil_r, Nat.add_0_r.
  - simpl fold_left. rewrite IH. simpl.
    unfold sum_counts. simpl. f_equal.
    + now rewrite <- app_assoc.
    + lia.
Qed.

(** The table, line by line. *)
Lemma print_sloc_table_lines pairs :
  print_sloc_table pairs =
    header :: rule :: List.map data_row pairs ++ [rule; total_row pairs].
Proof.
  unfold print_sloc_table. rewrite report_loop. reflexivity.
Qed.

(** *** The numeral in a row can be read back *)

Lemma uint_text_digits u : Forall digit (uint_text u).
Proof.
  induction u; simpl; constructor; auto; unfold digit; lia.
Qed.

Lemma uint_text_inj u : forall v, uint_text u = uint_text v -> u = v.
Proof.
  induction u; intros v H; destruct v; simpl in H;
    try discriminate H; try reflexivity;
    injection H as H; f_equal; auto.
Qed.

Lemma int_text_inj m n : int_text m = int_text n -> m = n.
Proof.
  intros H. apply DecimalNat.Unsigned.to_uint_inj. now apply uint_text_inj.
Qed.

Lemma padding_inv j : forall k s t,
  Forall digit s -> Forall digit t ->
  repeat space j ++ s = repeat space k ++ t -> s = t.
Proof.
  assert (Hd : forall r, ~ Forall digit (space :: r)).
  { intros r H. inversion H as [|? ? Hs _]. unfold digit, space in Hs. lia. }
  induction j as [|j IH]; intros [|k] s t Hs Ht H; simpl in H.
  - exact H.
  - subst s. now apply Hd in Hs.
  - subst t. now apply Hd in Ht.
  - injection H as H. now apply (IH k).
Qed.

Lemma format_row_count_inj a m n :
  format_row a (int_text m) = format_row a (int_text n) -> m = n.
Proof.
  unfold format_row, rjust. intros H. apply app_inv_head in H.
  injection H as H. apply int_text_inj.
  apply padding_inv in H; auto; apply uint_text_digits.
Qed.

(** C5: the last line of the table is the row labelled [Total], and the
    numeral in it is that of the sum of all the counts: no other number
    prints as this row.  With no pair the sum is 0. *)
Theorem total_row_prints_the_exact_sum :
  forall pairs,
    last (print_sloc_table pairs) [] =
      format_row (txt "Total") (int_text (sum_counts pairs)) /\
    (forall m, last (print_sloc_table pairs) [] =
                 format_row (txt "Total") (int_text m) ->
               m = sum_counts pairs) /\
    sum_counts [] = 0 /\
    (forall pair, sum_counts (pairs ++ [pair]) = sum_counts pairs + snd pair).
Proof.
  intros pairs.
  assert (Hlast : last (print_sloc_table pairs) [] = total_row pairs).
  { rewrite print_sloc_table_lines.
    replace (header :: rule :: List.map data_row pairs ++ [rule; total_row pairs])
      with ((header :: rule :: List.map data_row pairs ++ [rule])
              ++ [total_row pairs])
      by (simpl; now rewrite <- app_assoc).
    apply last_last. }
  repeat split.
  - exact Hlast.
  - intros m Hm. rewrite Hlast in Hm. unfold total_row in Hm.
    symmetry. now apply format_row_count_inj in Hm.
  - intros pair. unfold sum_counts. rewrite map_app, list_sum_app. simpl. lia.
Qed.

Lemma total_row_prints_the_exact_sum_witness :
  last (print_sloc_table two_files) [] = format_row (txt "Total") (int_text 13)
  /\ 13 = sum_counts two_files.
Proof.
  assert (H : last (print_sloc_table two_files) [] =
              format_row (txt "Total") (int_text 13)) by reflexivity.
  exact (conj H
    (proj1 (proj2 (total_row_prints_the_exact_sum two_files)) 13 H)).
Defined.

(** *** The columns *)

Lemma ljust_length w s : List.length (ljust w s) = Nat.max w (List.length s).
Proof. unfold ljust. rewrite length_app, repeat_length. lia. Qed.

Lemma rjust_length w s : List.length (rjust w s) = Nat.max w (List.length s).
Proof. unfold rjust. rewrite length_app, repeat_length. lia. Qed.

Lemma format_row_length a b :
  List.length (format_row a b) =
    Nat.max 60 (List.length a) + 1 + Nat.max 10 (List.length b).
Proof.
  unfold format_row. rewrite length_app, ljust_length.
  change (List.length (space :: rjust 10 b)) with (S (List.length (rjust 10 b))).
  rewrite rjust_length. lia.
Qed.

Lemma fit_short w s : List.length s <= w -> fit w s = ljust w s.
Proof.
  intros H. unfold fit, ljust. now rewrite firstn_all2.
Qed.

(** C8, as stated, fails: a path of 61 characters is printed in full, so
    its row is not the padded-or-truncated row of the specification, and
    it is one character wider than the rule. *)
Lemma long_path_is_not_truncated :
  List.length long_path = 61 /\
  nth 2 (print_sloc_table [(long_path, 1)]) [] <> claimed_row (long_path, 1) /\
  List.length (nth 2 (print_sloc_table [(long_path, 1)]) []) = 72 /\
  List.length (claimed_row (long_path, 1)) = 71.
Proof.
  split; [reflexivity|]. split; [|split; reflexivity].
  intros H. apply (f_equal (@List.length char)) in H.
  vm_compute in H. discriminate H.
Qed.

(** C8, amended: the table is the header, a rule, one row per pair in
    order, the same rule, and the total row; the rule is made of [=] and
    is as wide as the header, 71 characters.  A data row is the whole
    path, spaces up to column 60 when the path is shorter, one space,
    spaces up to width 10 when the numeral is shorter, and the numeral;
    a path or numeral wider than its column is printed in full.  When
    both fit their columns the row is the one the specification
    describes and is as wide as the header. *)
Theorem rows_are_padded_and_never_truncated :
  forall pairs,
    print_sloc_table pairs =
      header :: rule :: List.map data_row pairs ++ [rule; total_row pairs] /\
    rule = repeat 61%N (List.length header) /\
    List.length header = 71 /\
    (forall path count,
       data_row (path, count) =
         path ++ repeat space (60 - List.length path) ++ [space]
              ++ repeat space (10 - List.length (int_text count))
              ++ int_text count) /\
    (forall path count,
       List.length path <= 60 -> List.length (int_text count) <= 10 ->
       data_row (path, count) = claimed_row (path, count) /\
       List.length (data_row (path, count)) = List.length header).
Proof.
  intros pairs. split; [apply print_sloc_table_lines|].
  split; [reflexivity|]. split; [reflexivity|]. split.
  - intros path count. unfold data_row, format_row, ljust, rjust. simpl.
    now rewrite <- app_assoc.
  - intros path count Hp Hc. split.
    + unfold claimed_row, data_row, format_row. simpl.
      now rewrite fit_short.
    + unfold data_row. rewrite format_row_length. simpl fst. simpl snd.
      change (List.length header) with 71. lia.
Qed.

Lemma rows_are_padded_and_never_truncated_witness :
  List.length (txt "A.cs") <= 60 /\ List.length (int_text 10) <= 10 /\
  data_row (txt "A.cs", 10) = claimed_row (txt "A.cs", 10) /\
  List.length (data_row (txt "A.cs", 10)) = List.length header.
Proof.
  assert (H1 : List.length (txt "A.cs") <= 60) by (vm_compute; lia).
  assert (H2 : List.length (int_text 10) <= 10) by (vm_compute; lia).
  exact (conj H1 (conj H2
    (proj2 (proj2 (proj2 (proj2
       (rows_are_padded_and_never_truncated two_files))))
       (txt "A.cs") 10 H1 H2))).
Defined.

End ReporterFacts.

(** * Properties of the entry point *)

Module MainFacts.

Lemma insert_desc_perm x l : Permutation (x :: l) (insert_desc x l).
Proof.
  induction l as [|y l IH]; simpl; [reflexivity|].
  destruct (snd x <? snd y); [|reflexivity].
  rewrite perm_swap. now constructor.
Qed.

Lemma sort_desc_perm l : Permutation l (sort_desc l).
Proof.
  induction l as [|x l IH]; simpl; [constructor|].
  rewrite <- insert_desc_perm. now constructor.
Qed.

Lemma insert_desc_above y x l :
  count_ge y x -> Forall (count_ge y) l -> Forall (count_ge y) (insert_desc x l).
Proof.
  intros Hx Hl. eapply Permutation_Forall; [apply insert_desc_perm|].
  now constructor.
Qed.

Lemma insert_desc_sorted x l :
  StronglySorted count_ge l -> StronglySorted count_ge (insert_desc x l).
Proof.
  induction 1 as [|y l Hl IH Hy]; simpl.
  - repeat constructor.
  - destruct (snd x <? snd y) eqn:E.
    + apply Nat.ltb_lt in E. constructor; auto.
      apply insert_desc_above; auto. unfold count_ge. lia.
    + apply Nat.ltb_ge in E. constructor; [now constructor|].
      constructor; [exact E|].
      eapply Forall_impl; [|exact Hy]. unfold count_ge. intros z Hz. lia.
Qed.

Lemma sort_desc_sorted l : StronglySorted count_ge (sort_desc l).
Proof.
  induction l as [|x l IH]; simpl; [constructor|].
  now apply insert_desc_sorted.
Qed.

Lemma insert_desc_with_count k x l :
  with_count k (insert_desc x l) = with_count k (x :: l).
Proof.
  induction l as [|y l IH]; [reflexivity|].
  simpl insert_desc. destruct (snd x <? snd y) eqn:E; [|reflexivity].
  apply Nat.ltb_lt in E. unfold with_count in *. simpl in *.
  rewrite IH.
  destruct (snd x =? k) eqn:Ex, (snd y =? k) eqn:Ey; try reflexivity.
  apply Nat.eqb_eq in Ex, Ey. lia.
Qed.

Lemma sort_desc_with_count k l :
  with_count k (sort_desc l) = with_count k l.
Proof.
  induction l as [|x l IH]; [reflexivity|].
  simpl sort_desc. rewrite insert_desc_with_count.
  unfold with_count in *. simpl. now rewrite IH.
Qed.

(** A list in descending order is known from its pairs of each count, so
    there is one stable descending sort: the result of [list.sort] does
    not depend on the algorithm behind it. *)
Lemma sorted_by_counts_unique l1 : forall l2,
  StronglySorted count_ge l1 -> StronglySorted count_ge l2 ->
  (forall k, with_count k l1 = with_count k l2) ->
  l1 = l2.
Proof.
  assert (Hnil : forall l, (forall k, with_count k l = []) -> l = []).
  { intros [|x l] H; [reflexivity|]. specialize (H (snd x)).
    unfold with_count in H. simpl in H. rewrite Nat.eqb_refl in H.
    discriminate H. }
  assert (Hhead : forall x l y l',
             StronglySorted count_ge (y :: l') ->
             (forall k, with_count k (x :: l) = with_count k (y :: l')) ->
             snd x <= snd y).
  { intros x l y l' Hs H. specialize (H (snd x)).
    assert (Hin : In x (with_count (snd x) (y :: l'))).
    { rewrite <- H. unfold with_count. simpl. rewrite Nat.eqb_refl. now left. }
    apply filter_In in Hin as [[-> | Hin] _]; [lia|].
    inversion Hs as [|? ? _ Hall]. subst.
    rewrite Forall_forall in Hall. exact (Hall x Hin). }
  induction l1 as [|x l1 IH]; intros [|y l2] H1 H2 H.
  - reflexivity.
  - symmetry. apply Hnil. intros k. now rewrite <- H.
  - apply Hnil. intros k. now rewrite H.
  - assert (Hxy : snd x = snd y).
    { apply Nat.le_antisymm; [eapply Hhead | eapply Hhead]; eauto. }
    assert (Hx : x = y /\ with_count (snd x) l1 = with_count (snd x) l2).
    { specialize (H (snd x)). unfold with_count in *. simpl in H.
      rewrite <- Hxy, Nat.eqb_refl in H. injection H as -> H. auto. }
    destruct Hx as [<- Hx]. f_equal.
    inversion H1; inversion H2; subst. apply IH; auto.
    intros k. destruct (Nat.eq_dec k (snd x)) as [-> | Hk]; [exact Hx|].
    specialize (H k). unfold with_count in *. simpl in H.
    apply Nat.eqb_neq in Hk. rewrite Nat.eqb_sym in Hk.
    now rewrite Hk in H.
Qed.

Lemma stable_sort_unique l l' :
  StronglySorted count_ge l' ->
  (forall k, with_count k l' = with_count k l) ->
  l' = sort_desc l.
Proof.
  intros Hs Hk. apply sorted_by_counts_unique; auto using sort_desc_sorted.
  intros k. now rewrite Hk, sort_desc_with_count.
Qed.

(** C4: when the scan returns, the list handed to the reporter is the
    scan result sorted by descending count, pairs of equal count in the
    order of the scan; the data rows of the table are printed from it in
    order, so their counts never increase down the table. *)
Theorem table_rows_are_sorted_by_descending_count :
  forall os_path_join directory es pairs,
    count_sloc_in_directory os_path_join directory es = Ok pairs ->
    let sorted := sort_desc pairs in
    stdout (main os_path_join directory es) =
      prompt :: header :: rule
        :: List.map data_row sorted ++ [rule; total_row sorted] /\
    StronglySorted count_ge sorted /\
    Permutation pairs sorted /\
    (forall k, with_count k sorted = with_count k pairs).
Proof.
  intros os_path_join directory es pairs Hscan sorted.
  repeat split.
  - unfold main. rewrite Hscan. simpl.
    now rewrite ReporterFacts.print_sloc_table_lines.
  - apply sort_desc_sorted.
  - apply sort_desc_perm.
  - intros k. apply sort_desc_with_count.
Qed.

Lemma table_rows_are_sorted_by_descending_count_witness :
  let pairs := [(txt "repo/A.cs", 2); (txt "repo/sub/B.cs", 3)] in
  let sorted := sort_desc pairs in
  count_sloc_in_directory posix_join (txt "repo") sample_tree = Ok pairs /\
  sorted = [(txt "repo/sub/B.cs", 3); (txt "repo/A.cs", 2)] /\
  stdout (main posix_join (txt "repo") sample_tree) =
    prompt :: header :: rule
      :: List.map data_row sorted ++ [rule; total_row sorted] /\
  StronglySorted count_ge sorted /\
  Permutation pairs sorted /\
  (forall k, with_count k sorted = with_count k pairs).
Proof.
  intros pairs sorted.
  assert (H : count_sloc_in_directory posix_join (txt "repo") sample_tree
              = Ok pairs) by reflexivity.
  exact (conj H (conj eq_refl
    (@table_rows_are_sorted_by_descending_count
       posix_join (txt "repo") sample_tree pairs H))).
Defined.

End MainFacts.

(** * Properties of the walker *)

Module WalkerFacts.

Lemma entry_nested_ind (P : entry -> Prop) :
  (forall name content, P (File name content)) ->
  (forall name children, Forall P children -> P (Dir name children)) ->
  forall e, P e.
Proof.
  intros HF HD. fix IH 1. intros [name content | name children].
  - apply HF.
  - apply HD. induction children as [|e es IHes]; constructor.
    + apply IH.
    + exact IHes.
Qed.

Lemma text_eqb_eq a b : text_eqb a b = true <-> a = b.
Proof.
  unfold text_eqb. destruct (list_eq_dec N.eq_dec a b); intuition congruence.
Qed.

Lemma lookup_in path content ps :
  NoDup (List.map fst ps) -> In (path, content) ps ->
  lookup path ps = Some content.
Proof.
  induction ps as [|[p c] ps IH]; intros Hnd Hin; [contradiction|].
  simpl in Hnd. inversion Hnd as [|? ? Hp Hnd']; subst.
  simpl. destruct Hin as [Heq | Hin].
  - injection Heq as -> ->.
    now rewrite (proj2 (text_eqb_eq path path) eq_refl).
  - destruct (text_eqb p path) eqn:E; [|now apply IH].
    apply text_eqb_eq in E. subst p. exfalso. apply Hp.
    change path with (fst (path, content)). now apply in_map.
Qed.

Lemma bind_assoc {A B C : Type} (r : result A)
    (k : A -> result B) (h : B -> result C) :
  (y <- (x <- r ;; k x) ;; h y) = (x <- r ;; y <- k x ;; h y).
Proof. destruct r; reflexivity. Qed.

Lemma collect_app fs gs : forall acc,
  collect (fs ++ gs) acc = (acc' <- collect fs acc ;; collect gs acc').
Proof.
  induction fs as [|f fs IH]; intros acc; [reflexivity|].
  simpl. rewrite bind_assoc. destruct (classify (found_content f)); simpl; auto.
Qed.

Section Walk.

Variable os_path_join : text -> text -> text.

#[local] Abbreviation here_files := (here_files os_path_join).
#[local] Abbreviation below_entry := (below_entry os_path_join).
#[local] Abbreviation files_below := (files_below os_path_join).
#[local] Abbreviation file_below := (file_below os_path_join).
#[local] Abbreviation walk_entry := (walk_entry os_path_join).

(** *** The two enumerations agree *)

Lemma in_here_files top es f :
  In f (here_files top es) <->
  exists name content,
    In (File name content) es /\
    f = Found name (os_path_join top name) content.
Proof.
  unfold WalkerSpec.here_files. rewrite in_flat_map. split.
  - intros ([name content | name children] & He & Hf); simpl in Hf;
      [|contradiction].
    destruct Hf as [<- | []]. eauto.
  - intros (name & content & He & ->).
    exists (File name content). split; [exact He | now left].
Qed.

Lemma in_below_entry e : forall top f,
  In f (below_entry top e) <->
  exists name children,
    e = Dir name children /\ file_below (os_path_join top name) children f.
Proof.
  induction e as [name content | name children IH] using entry_nested_ind;
    intros top f.
  - simpl. split; [contradiction|]. intros (? & ? & H & _). discriminate H.
  - simpl. rewrite in_app_iff, in_here_files, in_flat_map. split.
    + intros [(n & c & Hin & ->) | (e & He & Hf)].
      * exists name, children. split; [reflexivity|]. now constructor.
      * rewrite Forall_forall in IH.
        apply (IH e He) in Hf as (d & ch & -> & Hf).
        exists name, children. split; [reflexivity|].
        eapply file_deeper; eauto.
    + intros (n & ch & Heq & Hf). injection Heq as <- <-.
      inversion Hf as [? ? n c Hin | ? ? d ch' f' Hin Hdeep]; subst.
      * left. eauto.
      * right. exists (Dir d ch'). split; [exact Hin|].
        rewrite Forall_forall in IH. apply (IH _ Hin). eauto.
Qed.

Lemma in_files_below top es f :
  In f (files_below top es) <-> file_below top es f.
Proof.
  unfold WalkerSpec.files_below.
  rewrite in_app_iff, in_here_files, in_flat_map. split.
  - intros [(n & c & Hin & ->) | (e & He & Hf)].
    + now constructor.
    + apply in_below_entry in Hf as (d & ch & -> & Hf).
      eapply file_deeper; eauto.
  - intros Hf. inversion Hf as [? ? n c Hin | ? ? d ch f' Hin Hdeep]; subst.
    + left. eauto.
    + right. exists (Dir d ch). split; [exact Hin|].
      apply in_below_entry. eauto.
Qed.

(** *** Opening a file the walk has found *)

Lemma file_below_paths top es f :
  file_below top es f ->
  In (found_path f, found_content f) (paths os_path_join top es).
Proof.
  induction 1 as [top es name content Hin | top es name children f Hin _ IH];
    unfold paths; apply in_flat_map.
  - exists (File name content). split; [exact Hin | now left].
  - exists (Dir name children). split; [exact Hin | exact IH].
Qed.

Lemma fs_open_found top es f :
  NoDup (List.map fst (paths os_path_join top es)) ->
  file_below top es f ->
  fs_open os_path_join top es (found_path f) = Ok (found_content f).
Proof.
  intros Hnd Hf. unfold fs_open.
  now rewrite (@lookup_in _ _ _ Hnd (file_below_paths Hf)).
Qed.

(** *** The two loops *)

Section Scan.

Variable open_ : text -> result (list byte).

#[local] Abbreviation scan_files := (scan_files os_path_join open_).
#[local] Abbreviation scan_walk := (scan_walk os_path_join open_).
#[local] Abbreviation opens := (opens open_).

Lemma opens_app fs gs : opens (fs ++ gs) <-> opens fs /\ opens gs.
Proof.
  unfold WalkerSpec.opens. split.
  - intros H. split; intros f Hf; apply H, in_or_app; auto.
  - intros [H1 H2] f Hf. apply in_app_or in Hf as [Hf | Hf]; auto.
Qed.

Lemma count_sloc_in_file_classify path content :
  open_ path = Ok content -> count_sloc_in_file open_ path = classify content.
Proof. intros H. unfold count_sloc_in_file. now rewrite H. Qed.

Lemma scan_files_collect top es : forall acc,
  opens (here_files top es) ->
  scan_files top (filenames es) acc =
    collect (filter is_cs (here_files top es)) acc.
Proof.
  induction es as [|[name content | name children] es IH]; intros acc Hop.
  - reflexivity.
  - change (here_files top (File name content :: es))
      with (Found name (os_path_join top name) content :: here_files top es)
      in *.
    change (filenames (File name content :: es)) with (name :: filenames es).
    assert (Hes : opens (here_files top es)).
    { intros f Hf. apply Hop. now right. }
    simpl. unfold is_cs at 1. simpl found_name.
    destruct (endswith (txt ".cs") name); [|now apply IH].
    assert (Hc : count_sloc_in_file open_ (os_path_join top name)
                 = classify content).
    { apply count_sloc_in_file_classify.
      exact (Hop (Found name (os_path_join top name) content)
                 (or_introl eq_refl)). }
    simpl. rewrite Hc.
    destruct (classify content); simpl; [now apply IH | reflexivity].
  - apply IH. exact Hop.
Qed.

Lemma scan_walk_app items items' : forall acc,
  scan_walk (items ++ items') acc =
    (pairs <- scan_walk items acc ;; scan_walk items' pairs).
Proof.
  induction items as [|[[root dirs] files] items IH]; intros acc;
    [reflexivity|].
  simpl. rewrite bind_assoc.
  destruct (Walker.scan_files os_path_join open_ root files acc); simpl; auto.
Qed.

Lemma scan_walk_children top es :
  Forall (fun e => forall top acc,
            opens (below_entry top e) ->
            scan_walk (walk_entry top e) acc =
              collect (filter is_cs (below_entry top e)) acc) es ->
  forall acc,
    opens (flat_map (below_entry top) es) ->
    scan_walk (flat_map (walk_entry top) es) acc =
      collect (filter is_cs (flat_map (below_entry top) es)) acc.
Proof.
  induction 1 as [|e es He _ IH]; intros acc Hop; [reflexivity|].
  simpl in *. apply opens_app in Hop as [Hop1 Hop2].
  rewrite scan_walk_app, filter_app, collect_app, (He _ _ Hop1).
  destruct (collect _ acc); simpl; auto.
Qed.

Lemma scan_walk_entry e : forall top acc,
  opens (below_entry top e) ->
  scan_walk (walk_entry top e) acc =
    collect (filter is_cs (below_entry top e)) acc.
Proof.
  induction e as [name content | name children IH] using entry_nested_ind;
    intros top acc Hop; [reflexivity|].
  simpl in *. apply opens_app in Hop as [Hop1 Hop2].
  rewrite filter_app, collect_app, (@scan_files_collect _ _ _ Hop1).
  destruct (collect _ acc); simpl; [|reflexivity].
  now apply scan_walk_children.
Qed.

Lemma scan_walk_os_walk top es :
  opens (files_below top es) ->
  scan_walk (os_walk os_path_join top es) [] =
    collect (filter is_cs (files_below top es)) [].
Proof.
  unfold os_walk, WalkerSpec.files_below. intros Hop.
  apply opens_app in Hop as [Hop1 Hop2]. simpl.
  rewrite filter_app, collect_app, (@scan_files_collect _ _ _ Hop1).
  destruct (collect _ []); simpl; [|reflexivity].
  apply scan_walk_children; auto.
  apply Forall_forall. intros e _. apply scan_walk_entry.
Qed.

End Scan.

(** The scan is the classifier run over the [.cs] files below the
    directory, in the order of the walk. *)
Lemma count_sloc_in_directory_collect directory es :
  NoDup (List.map fst (paths os_path_join directory es)) ->
  count_sloc_in_directory os_path_join directory es =
    collect (filter is_cs (files_below directory es)) [].
Proof.
  intros Hnd. unfold count_sloc_in_directory. apply scan_walk_os_walk.
  intros f Hf. apply fs_open_found; auto. now apply in_files_below.
Qed.

End Walk.

(** *** What the scan returns *)

Lemma classify_cases content :
  (exists s, decode content = Some s /\
             classify content = Ok (count_sloc_lines (file_lines s))) \/
  (decode content = None /\ classify content = Raise UnicodeDecodeError).
Proof.
  unfold classify. destruct (decode content) as [s|]; [left; eauto | now right].
Qed.

Lemma collect_ok fs : forall acc,
  Forall (fun f => decode (found_content f) <> None) fs ->
  exists pairs,
    collect fs acc = Ok (acc ++ pairs) /\
    Forall2 (fun f pair => fst pair = found_path f /\
                           classify (found_content f) = Ok (snd pair))
            fs pairs.
Proof.
  induction fs as [|f fs IH]; intros acc Hall.
  - exists []. split; [now rewrite app_nil_r | constructor].
  - inversion Hall as [|? ? Hf Hfs]; subst.
    destruct (classify_cases (found_content f))
      as [(s & _ & Hc) | [Hd _]]; [|contradiction].
    destruct (IH (acc ++ [(found_path f, count_sloc_lines (file_lines s))]) Hfs)
      as (pairs & Hcol & Hpairs).
    exists ((found_path f, count_sloc_lines (file_lines s)) :: pairs). split.
    + simpl. rewrite Hc. simpl. rewrite Hcol. now rewrite <- app_assoc.
    + constructor; auto.
Qed.

Lemma collect_raise fs : forall acc f,
  In f fs -> decode (found_content f) = None ->
  collect fs acc = Raise UnicodeDecodeError.
Proof.
  induction fs as [|g fs IH]; intros acc f Hin Hdec; [contradiction|].
  simpl. destruct (classify_cases (found_content g))
    as [(s & _ & Hc) | [_ Hc]]; rewrite Hc; simpl; [|reflexivity].
  destruct Hin as [-> | Hin]; [|now apply (IH _ f)].
  unfold classify in Hc. rewrite Hdec in Hc. discriminate Hc.
Qed.

(** C6: on a tree where every [.cs] file decodes, the scan returns one
    pair for each file below the root, at any depth, whose name ends with
    [.cs], and no other pair: the pair holds the path of the file and the
    count the classifier gives for it. *)
Theorem scan_returns_one_pair_per_cs_file :
  forall os_path_join directory es,
    NoDup (List.map fst (paths os_path_join directory es)) ->
    (forall f, file_below os_path_join directory es f -> is_cs f = true ->
               decode (found_content f) <> None) ->
    exists pairs,
      count_sloc_in_directory os_path_join directory es = Ok pairs /\
      Forall2 (fun f pair =>
                 fst pair = found_path f /\
                 count_sloc_in_file (fs_open os_path_join directory es)
                                    (found_path f) = Ok (snd pair) /\
                 classify (found_content f) = Ok (snd pair))
              (filter is_cs (files_below os_path_join directory es)) pairs /\
      (forall f, In f (filter is_cs (files_below os_path_join directory es)) <->
                 file_below os_path_join directory es f /\
                 endswith (txt ".cs") (found_name f) = true).
Proof.
  intros os_path_join directory es Hnd Hdec.
  assert (Hin : forall f,
             In f (filter is_cs (files_below os_path_join directory es)) <->
             file_below os_path_join directory es f /\
             endswith (txt ".cs") (found_name f) = true).
  { intros f. rewrite filter_In, in_files_below. reflexivity. }
  destruct (@collect_ok (filter is_cs (files_below os_path_join directory es)) [])
    as (pairs & Hcol & Hpairs).
  { apply Forall_forall. intros f Hf. apply Hin in Hf as [Hf Hcs].
    now apply Hdec. }
  exists pairs. split; [|split; [|exact Hin]].
  - now rewrite count_sloc_in_directory_collect.
  - assert (Hmem : Forall (fun f => file_below os_path_join directory es f)
                     (filter is_cs (files_below os_path_join directory es))).
    { apply Forall_forall. intros f Hf. now apply Hin in Hf. }
    clear Hcol Hin Hdec.
    induction Hpairs as [|f pair fs ps [Hpath Hc] _ IH]; [constructor|].
    inversion Hmem as [|? ? Hf Hfs]; subst.
    constructor; [|now apply IH].
    repeat split; auto.
    rewrite (@count_sloc_in_file_classify _ _ _ (fs_open_found Hnd Hf)).
    exact Hc.
Qed.

(** C7: when a file below the root whose name ends with [.cs] is not
    valid UTF-8, the scan raises [UnicodeDecodeError] in place of a list
    of pairs, whatever the other files hold, and the run prints nothing
    after the prompt. *)
Theorem decode_error_aborts_the_scan :
  forall os_path_join directory es f,
    NoDup (List.map fst (paths os_path_join directory es)) ->
    file_below os_path_join directory es f ->
    endswith (txt ".cs") (found_name f) = true ->
    decode (found_content f) = None ->
    count_sloc_in_directory os_path_join directory es =
      Raise UnicodeDecodeError /\
    main os_path_join directory es =
      {| stdout := [prompt]; raised := Some UnicodeDecodeError |}.
Proof.
  intros os_path_join directory es f Hnd Hf Hcs Hdec.
  assert (H : count_sloc_in_directory os_path_join directory es =
              Raise UnicodeDecodeError).
  { rewrite count_sloc_in_directory_collect by exact Hnd.
    apply (@collect_raise _ [] f); [|exact Hdec].
    apply filter_In. split; [now apply in_files_below | exact Hcs]. }
  split; [exact H|]. unfold main. now rewrite H.
Qed.

(** *** The theorems at work on example trees *)

Ltac eval_files_in H :=
  match type of H with
  | In ?f ?l => let v := eval vm_compute in l in change (In f v) in H
  end; simpl in H.

Ltac distinct_paths :=
  vm_compute;
  repeat (apply NoDup_cons; [simpl; intuition discriminate|]);
  apply NoDup_nil.

Example sample_tree_scan :
  count_sloc_in_directory posix_join (txt "repo") sample_tree =
    Ok [(txt "repo/A.cs", 2); (txt "repo/sub/B.cs", 3)].
Proof. reflexivity. Qed.

Lemma scan_returns_one_pair_per_cs_file_witness :
  NoDup (List.map fst (paths posix_join (txt "repo") sample_tree)) /\
  (forall f, file_below posix_join (txt "repo") sample_tree f ->
             is_cs f = true -> decode (found_content f) <> None) /\
  exists pairs,
    count_sloc_in_directory posix_join (txt "repo") sample_tree = Ok pairs /\
    Forall2 (fun f pair =>
               fst pair = found_path f /\
               count_sloc_in_file (fs_open posix_join (txt "repo") sample_tree)
                                  (found_path f) = Ok (snd pair) /\
               classify (found_content f) = Ok (snd pair))
            (filter is_cs (files_below posix_join (txt "repo") sample_tree))
            pairs /\
    (forall f,
       In f (filter is_cs (files_below posix_join (txt "repo") sample_tree)) <->
       file_below posix_join (txt "repo") sample_tree f /\
       endswith (txt ".cs") (found_name f) = true).
Proof.
  assert (H1 : NoDup (List.map fst (paths posix_join (txt "repo") sample_tree)))
    by distinct_paths.
  assert (H2 : forall f, file_below posix_join (txt "repo") sample_tree f ->
                         is_cs f = true -> decode (found_content f) <> None).
  { intros f Hf _. apply in_files_below in Hf.
    eval_files_in Hf.
    repeat (destruct Hf as [<- | Hf]; [intros H; discriminate H|]).
    contradiction. }
  exact (conj H1 (conj H2
    (@scan_returns_one_pair_per_cs_file posix_join (txt "repo") sample_tree
       H1 H2))).
Defined.

Lemma decode_error_aborts_the_scan_witness :
  let f := Found (txt "broken.cs") (txt "repo/sub/broken.cs")
                 [Byte.x69; Byte.xff] in
  NoDup (List.map fst (paths posix_join (txt "repo") broken_tree)) /\
  file_below posix_join (txt "repo") broken_tree f /\
  endswith (txt ".cs") (found_name f) = true /\
  decode (found_content f) = None /\
  count_sloc_in_directory posix_join (txt "repo") broken_tree =
    Raise UnicodeDecodeError /\
  main posix_join (txt "repo") broken_tree =
    {| stdout := [prompt]; raised := Some UnicodeDecodeError |}.
Proof.
  intros f.
  assert (H1 : NoDup (List.map fst (paths posix_join (txt "repo") broken_tree)))
    by distinct_paths.
  assert (H2 : file_below posix_join (txt "repo") broken_tree f).
  { apply in_files_below. vm_compute. auto. }
  assert (H3 : endswith (txt ".cs") (found_name f) = true) by reflexivity.
  assert (H4 : decode (found_content f) = None) by reflexivity.
  exact (conj H1 (conj H2 (conj H3 (conj H4
    (@decode_error_aborts_the_scan posix_join (txt "repo") broken_tree f
       H1 H2 H3 H4))))).
Defined.

End WalkerFacts.

(** * Further properties of the classifier *)

Module ClassifierMore.

Import ClassifierFacts.

Lemma body_sloc_bound st line :
  sloc (loop_body st line) <= sloc st + (if is_code line then 1 else 0).
Proof.
  destruct (in_block_comment st) eqn:Hst.
  - rewrite body_in_block by exact Hst. simpl. lia.
  - destruct (skipped line) eqn:Hs.
    + rewrite body_skipped by assumption. lia.
    + destruct (opens_block line) eqn:Ho.
      * rewrite body_opens by assumption. simpl. lia.
      * assert (Hc : is_code line = true)
          by (unfold is_code; now rewrite Hs, Ho).
        rewrite body_code by assumption. rewrite Hc. simpl. lia.
Qed.

Lemma run_sloc_bound lines : forall st,
  sloc (run_loop st lines) <= sloc st + List.length (filter is_code lines).
Proof.
  induction lines as [|l ls IH]; intros st; [simpl; lia|].
  rewrite run_loop_cons. specialize (IH (loop_body st l)).
  pose proof (body_sloc_bound st l) as Hb. simpl filter.
  destruct (is_code l); simpl List.length; lia.
Qed.

(** X1: the count of a file never exceeds the number of its lines that,
    once trimmed, are not empty and start with neither [//] nor [/*];
    so it never exceeds the number of lines. *)
Theorem count_is_at_most_the_code_like_lines :
  forall fs_open file_path lines,
    file_has_lines fs_open file_path lines ->
    exists n,
      count_sloc_in_file fs_open file_path = Ok n /\
      n <= List.length (filter is_code lines) /\
      List.length (filter is_code lines) <= List.length lines.
Proof.
  intros fs_open file_path lines Hfile.
  exists (count_sloc_lines lines). split; [|split].
  - now apply count_sloc_in_file_lines.
  - apply (run_sloc_bound lines initial).
  - apply filter_length_le.
Qed.

Lemma count_is_at_most_the_code_like_lines_witness :
  let fs := one_file (encode_ascii block_file) in
  let lines := file_lines (txt block_file) in
  file_has_lines fs [] lines /\
  exists n,
    count_sloc_in_file fs [] = Ok n /\
    n <= List.length (filter is_code lines) /\
    List.length (filter is_code lines) <= List.length lines.
Proof.
  intros fs lines.
  assert (H : file_has_lines fs [] lines)
    by (apply one_file_has_lines; reflexivity).
  exact (conj H (count_is_at_most_the_code_like_lines H)).
Defined.

Lemma run_all_code lines : forall st,
  in_block_comment st = false ->
  Forall (fun l => is_code l = true) lines ->
  run_loop st lines =
    {| in_block_comment := false; sloc := sloc st + List.length lines |}.
Proof.
  induction lines as [|l ls IH]; intros st Hst Hall.
  - simpl. rewrite Nat.add_0_r, <- Hst. apply loop_state_eta.
  - inversion Hall as [|? ? Hl Hls]; subst.
    rewrite run_loop_cons, (body_code _ _ Hst Hl), IH by auto.
    simpl. f_equal. lia.
Qed.

(** X2: when every line of a file, once trimmed, is not empty and starts
    with neither [//] nor [/*], every line is counted, whatever the lines
    hold further on: a comment that opens after code on its line is not
    seen, and the loop ends outside a block comment. *)
Theorem lines_starting_with_code_are_all_counted :
  forall lines,
    Forall (fun l => strip l <> [] /\
                     startswith (txt "//") (strip l) = false /\
                     startswith (txt "/*") (strip l) = false) lines ->
    count_sloc_lines lines = List.length lines /\
    in_block_comment (run_loop initial lines) = false.
Proof.
  intros lines Hall.
  assert (H : Forall (fun l => is_code l = true) lines).
  { eapply Forall_impl; [|exact Hall]. intros l (Hb & Hc & Ho).
    unfold is_code, skipped, opens_block. rewrite Hc, Ho.
    destruct (strip l); [contradiction | reflexivity]. }
  unfold count_sloc_lines. rewrite (run_all_code initial eq_refl H).
  split; reflexivity.
Qed.

Lemma lines_starting_with_code_are_all_counted_witness :
  Forall (fun l => strip l <> [] /\
                   startswith (txt "//") (strip l) = false /\
                   startswith (txt "/*") (strip l) = false) three_lines /\
  count_sloc_lines three_lines = 3.
Proof.
  assert (H : Forall (fun l => strip l <> [] /\
                        startswith (txt "//") (strip l) = false /\
                        startswith (txt "/*") (strip l) = false) three_lines).
  { unfold three_lines.
    each_line ltac:(split; [intros E; discriminate E | split; reflexivity]). }
  exact (conj H (proj1 (lines_starting_with_code_are_all_counted H))).
Defined.

(** X3: a block comment that is opened and never closed hides the rest
    of the file: the count is the one reached before its opening line. *)
Theorem unclosed_block_comment_hides_the_rest :
  forall before opener rest,
    in_block_comment (run_loop initial before) = false ->
    startswith (txt "/*") (strip opener) = true ->
    Forall (fun l => contains (txt "*/") (strip l) = false) rest ->
    count_sloc_lines (before ++ opener :: rest) = count_sloc_lines before /\
    in_block_comment (run_loop initial (before ++ opener :: rest)) = true.
Proof.
  intros before opener rest Hst Ho Hrest.
  unfold count_sloc_lines. rewrite run_loop_app.
  rewrite (@run_open_block _ opener rest Hst Ho Hrest). split; reflexivity.
Qed.

Lemma unclosed_block_comment_hides_the_rest_witness :
  let before := [txt "int a;"] in
  let opener := txt "/* never closed" in
  let rest := [txt "int b;"; txt "// c"; txt "int d;"] in
  in_block_comment (run_loop initial before) = false /\
  startswith (txt "/*") (strip opener) = true /\
  Forall (fun l => contains (txt "*/") (strip l) = false) rest /\
  count_sloc_lines (before ++ opener :: rest) = 1.
Proof.
  intros before opener rest.
  assert (H1 : in_block_comment (run_loop initial before) = false)
    by reflexivity.
  assert (H2 : startswith (txt "/*") (strip opener) = true) by reflexivity.
  assert (H3 : Forall (fun l => contains (txt "*/") (strip l) = false) rest)
    by (each_line reflexivity).
  exact (conj H1 (conj H2 (conj H3
    (proj1 (@unclosed_block_comment_hides_the_rest before opener rest
              H1 H2 H3))))).
Defined.

Lemma body_shift b c line :
  loop_body {| in_block_comment := b; sloc := c |} line =
    {| in_block_comment :=
         in_block_comment (loop_body {| in_block_comment := b; sloc := 0 |} line);
       sloc :=
         c + sloc (loop_body {| in_block_comment := b; sloc := 0 |} line) |}.
Proof.
  destruct b.
  - rewrite !body_in_block by reflexivity. simpl. f_equal. lia.
  - destruct (skipped line) eqn:Hs.
    + rewrite !body_skipped by auto. simpl. f_equal. lia.
    + destruct (opens_block line) eqn:Ho.
      * rewrite !body_opens by auto. simpl. f_equal. lia.
      * assert (Hc : is_code line = true)
          by (unfold is_code; now rewrite Hs, Ho).
        rewrite !body_code by auto. simpl. f_equal. lia.
Qed.

Lemma run_shift lines : forall b c,
  run_loop {| in_block_comment := b; sloc := c |} lines =
    {| in_block_comment :=
         in_block_comment (run_loop {| in_block_comment := b; sloc := 0 |} lines);
       sloc :=
         c + sloc (run_loop {| in_block_comment := b; sloc := 0 |} lines) |}.
Proof.
  induction lines as [|l ls IH]; intros b c.
  - simpl. f_equal. lia.
  - rewrite !run_loop_cons, (body_shift b c l).
    destruct (loop_body {| in_block_comment := b; sloc := 0 |} l) as [b1 d].
    simpl. rewrite (IH b1 (c + d)), (IH b1 d). simpl. f_equal. lia.
Qed.

(** X4: when the lines [a] leave the loop outside a block comment, the
    count of [a] followed by [b] is the sum of the two counts. *)
Theorem counts_add_up_outside_block_comments :
  forall a b,
    in_block_comment (run_loop initial a) = false ->
    count_sloc_lines (a ++ b) = count_sloc_lines a + count_sloc_lines b.
Proof.
  intros a b Hst. unfold count_sloc_lines. rewrite run_loop_app.
  rewrite (loop_state_eta (run_loop initial a)), Hst.
  rewrite run_shift. reflexivity.
Qed.

Lemma counts_add_up_outside_block_comments_witness :
  in_block_comment (run_loop initial scenario) = false /\
  count_sloc_lines (scenario ++ three_lines) = 4 + 3.
Proof.
  assert (H : in_block_comment (run_loop initial scenario) = false)
    by reflexivity.
  exact (conj H (@counts_add_up_outside_block_comments scenario three_lines H)).
Defined.

(** *** White space at the ends of a line *)

Lemma lstrip_spaces ws x : all_space ws -> lstrip (ws ++ x) = lstrip x.
Proof.
  induction 1 as [|w ws Hw _ IH]; [reflexivity|].
  simpl. now rewrite Hw.
Qed.

Lemma strip_app_spaces ws : forall x,
  all_space ws -> strip (x ++ ws) = strip x.
Proof.
  induction ws as [|w ws IH]; intros x Hws.
  - now rewrite app_nil_r.
  - inversion Hws as [|? ? Hw Hws']; subst.
    change (w :: ws) with ([w] ++ ws). rewrite app_assoc.
    rewrite IH by exact Hws'. now apply strip_app_space.
Qed.

Lemma strip_reindented l l' : reindented l l' -> strip l' = strip l.
Proof.
  intros (ws1 & ws2 & H1 & H2 & ->).
  unfold strip at 1. rewrite lstrip_spaces by exact H1.
  fold (strip (l ++ ws2)). now apply strip_app_spaces.
Qed.

(** X5: white space added at the start or at the end of any lines, as
    indentation or trailing blanks, changes nothing to the count. *)
Theorem white_space_at_line_ends_does_not_matter :
  forall lines lines',
    Forall2 reindented lines lines' ->
    count_sloc_lines lines' = count_sloc_lines lines.
Proof.
  intros lines lines' H. unfold count_sloc_lines. f_equal.
  apply run_loop_strip.
  induction H as [|l l' ls ls' Hl _ IH]; [reflexivity|].
  simpl. now rewrite IH, (strip_reindented Hl).
Qed.

Lemma white_space_at_line_ends_does_not_matter_witness :
  let lines := [txt "int a;"; txt "// c"] in
  let lines' := [9%N :: txt "int a;" ++ [32%N; 32%N]; txt "    // c"] in
  Forall2 reindented lines lines' /\
  count_sloc_lines lines' = count_sloc_lines lines.
Proof.
  intros lines lines'.
  assert (H : Forall2 reindented lines lines').
  { constructor; [|constructor; [|constructor]].
    - exists [9%N], [32%N; 32%N]. repeat split; repeat constructor.
    - exists (txt "    "), []. repeat split; repeat constructor. }
  exact (conj H (white_space_at_line_ends_does_not_matter H)).
Defined.

(** *** Line ends *)

Lemma translate_line l : forall r,
  no_line_end l -> translate_newlines (l ++ r) = l ++ translate_newlines r.
Proof.
  induction l as [|c l IH]; intros r Hl; [reflexivity|].
  inversion Hl as [|? ? [_ Hc] Hl']; subst.
  simpl. apply N.eqb_neq in Hc. rewrite Hc. now rewrite IH.
Qed.

Lemma join_cr_head ls last :
  Forall no_line_end ls -> no_line_end last ->
  match join_lines [CR] ls ++ last with
  | c :: _ => c <> LF
  | [] => True
  end.
Proof.
  intros H Hlast. destruct H as [|l ls Hl _].
  - simpl. destruct Hlast as [|c r [Hc _] _]; [exact I | exact Hc].
  - unfold join_lines. simpl.
    destruct Hl as [|c l [Hc _] _]; simpl; [discriminate | exact Hc].
Qed.

Lemma translate_join eol ls last :
  line_end eol -> Forall no_line_end ls -> no_line_end last ->
  translate_newlines (join_lines eol ls ++ last) = join_lines [LF] ls ++ last.
Proof.
  intros Heol H Hlast. induction H as [|l ls Hl Hls IH].
  - simpl. rewrite <- (app_nil_r last) at 1.
    rewrite translate_line by exact Hlast. apply app_nil_r.
  - unfold join_lines in *. simpl. rewrite <- !app_assoc.
    rewrite translate_line by exact Hl. f_equal.
    destruct Heol as [-> | [-> | ->]].
    + simpl. now rewrite IH.
    + simpl. now rewrite IH.
    + pose proof (join_cr_head Hls Hlast) as Hhead.
      unfold join_lines in Hhead. simpl. f_equal. rewrite <- IH.
      destruct (List.concat (List.map (fun l0 => l0 ++ [CR]) ls) ++ last)
        as [|c r]; [reflexivity|].
      apply N.eqb_neq in Hhead. now rewrite Hhead.
Qed.

Lemma split_line l : forall r,
  no_line_end l -> split_lines (l ++ LF :: r) = (l ++ [LF]) :: split_lines r.
Proof.
  induction l as [|c l IH]; intros r Hl; [reflexivity|].
  inversion Hl as [|? ? [Hc _] Hl']; subst.
  simpl. apply N.eqb_neq in Hc. rewrite Hc. now rewrite IH.
Qed.

Lemma split_last_line l :
  no_line_end l -> l <> [] -> split_lines l = [l].
Proof.
  induction 1 as [|c l [Hc _] Hl IH]; intros Hne; [contradiction|].
  simpl. apply N.eqb_neq in Hc. rewrite Hc.
  destruct l as [|d l]; [reflexivity|].
  rewrite IH by discriminate. reflexivity.
Qed.

Lemma split_join ls last :
  Forall no_line_end ls ->
  split_lines (join_lines [LF] ls ++ last) =
    List.map (fun l => l ++ [LF]) ls ++ split_lines last.
Proof.
  induction 1 as [|l ls Hl _ IH]; [reflexivity|].
  unfold join_lines in *. simpl. rewrite <- !app_assoc. simpl.
  rewrite split_line by exact Hl. now rewrite IH.
Qed.

Lemma file_lines_join eol ls last :
  line_end eol -> Forall no_line_end ls -> no_line_end last ->
  file_lines (join_lines eol ls ++ last) =
    List.map (fun l => l ++ [LF]) ls ++ split_lines last.
Proof.
  intros Heol H Hlast. unfold file_lines.
  rewrite translate_join by assumption. now apply split_join.
Qed.

Lemma run_closed_lines ls : forall st,
  run_loop st (List.map (fun l => l ++ [LF]) ls) = run_loop st ls.
Proof.
  intros st. apply run_loop_strip.
  rewrite map_map. apply map_ext. intros l. now apply strip_app_space.
Qed.

(** X6: take a file whose lines all close with LF, all with CR LF, or all
    with CR, the last line closed or not.  Its count is the count of its
    lines: neither the kind of line end nor a missing final line end
    matters. *)
Theorem line_end_kind_does_not_matter :
  forall fs_open file_path content eol ls last,
    fs_open file_path = Ok content ->
    decode content = Some (join_lines eol ls ++ last) ->
    line_end eol ->
    Forall no_line_end ls ->
    no_line_end last ->
    count_sloc_in_file fs_open file_path = Ok (count_sloc_lines (ls ++ [last]))
    /\ count_sloc_lines (ls ++ [[]]) = count_sloc_lines ls.
Proof.
  intros fs_open file_path content eol ls last Hopen Hdec Heol Hls Hlast.
  assert (Hblank : forall st, run_loop st (ls ++ [[]]) = run_loop st ls).
  { intros st. rewrite run_loop_app. simpl.
    unfold loop_body. simpl. now destruct (in_block_comment _). }
  split; [|unfold count_sloc_lines; now rewrite Hblank].
  assert (Hfile : file_has_lines fs_open file_path
                    (List.map (fun l => l ++ [LF]) ls ++ split_lines last)).
  { exists content, (join_lines eol ls ++ last). repeat split; auto.
    now apply file_lines_join. }
  rewrite (count_sloc_in_file_lines Hfile). f_equal.
  unfold count_sloc_lines. f_equal.
  rewrite !run_loop_app, run_closed_lines.
  destruct last as [|c last].
  - simpl. unfold loop_body. simpl. now destruct (in_block_comment _).
  - rewrite split_last_line by (auto; discriminate). reflexivity.
Qed.

Lemma line_end_kind_does_not_matter_witness :
  one_file crlf_file [] = Ok crlf_file /\
  decode crlf_file = Some (join_lines [CR; LF] crlf_lines ++ txt "int c;") /\
  line_end [CR; LF] /\
  Forall no_line_end crlf_lines /\
  no_line_end (txt "int c;") /\
  count_sloc_in_file (one_file crlf_file) [] = Ok 3.
Proof.
  assert (H1 : one_file crlf_file [] = Ok crlf_file) by reflexivity.
  assert (H2 : decode crlf_file
               = Some (join_lines [CR; LF] crlf_lines ++ txt "int c;"))
    by reflexivity.
  assert (H3 : line_end [CR; LF]) by (right; left; reflexivity).
  assert (H4 : Forall no_line_end crlf_lines).
  { unfold crlf_lines.
    each_line ltac:(vm_compute;
                    each_line ltac:(split; intros E; discriminate E)). }
  assert (H5 : no_line_end (txt "int c;")).
  { vm_compute. each_line ltac:(split; intros E; discriminate E). }
  exact (conj H1 (conj H2 (conj H3 (conj H4 (conj H5
    (proj1 (@line_end_kind_does_not_matter _ [] crlf_file [CR; LF]
              crlf_lines (txt "int c;") H1 H2 H3 H4 H5))))))).
Defined.

(** *** Blank lines *)

Lemma body_blank st line : strip line = [] -> loop_body st line = st.
Proof.
  intros H. unfold loop_body. rewrite H. simpl.
  now destruct (in_block_comment st).
Qed.

(** X7: blank lines change nothing, inside a block comment or outside:
    a file has the count of its lines that are not blank. *)
Theorem blank_lines_do_not_matter :
  forall lines st,
    run_loop st (filter nonblank lines) = run_loop st lines /\
    count_sloc_lines (filter nonblank lines) = count_sloc_lines lines.
Proof.
  assert (H : forall lines st,
             run_loop st (filter nonblank lines) = run_loop st lines).
  { induction lines as [|l ls IH]; intros st; [reflexivity|].
    simpl. unfold nonblank at 1. destruct (strip l) eqn:E; simpl.
    - rewrite (body_blank st l E). apply IH.
    - apply IH. }
  intros lines st. split; [apply H|].
  unfold count_sloc_lines. now rewrite H.
Qed.

End ClassifierMore.

(** * Further properties of the walker, the reporter and the entry point *)

Module ProgramMore.

Import WalkerFacts ReporterFacts MainFacts.

Lemma collect_raise_inv fs : forall acc e,
  collect fs acc = Raise e ->
  e = UnicodeDecodeError /\
  exists f, In f fs /\ decode (found_content f) = None.
Proof.
  induction fs as [|f fs IH]; intros acc e H; [discriminate H|].
  simpl in H.
  destruct (classify_cases (found_content f))
    as [(s & _ & Hc) | [Hd Hc]]; rewrite Hc in H; simpl in H.
  - destruct (IH _ _ H) as (He & g & Hg & Hdec).
    split; [exact He|]. exists g. split; [now right | exact Hdec].
  - injection H as <-. split; [reflexivity|].
    exists f. split; [now left | exact Hd].
Qed.

(** X8: on a tree of readable files the scan fails in one way only: it
    raises [UnicodeDecodeError], and then some file below the root whose
    name ends with [.cs] is not valid UTF-8.  It returns a list exactly
    when every such file decodes. *)
Theorem scan_fails_only_on_an_undecodable_cs_file :
  forall os_path_join directory es,
    NoDup (List.map fst (paths os_path_join directory es)) ->
    (forall e,
       count_sloc_in_directory os_path_join directory es = Raise e ->
       e = UnicodeDecodeError /\
       exists f, file_below os_path_join directory es f /\
                 endswith (txt ".cs") (found_name f) = true /\
                 decode (found_content f) = None) /\
    ((exists pairs,
        count_sloc_in_directory os_path_join directory es = Ok pairs) <->
     (forall f, file_below os_path_join directory es f ->
                endswith (txt ".cs") (found_name f) = true ->
                decode (found_content f) <> None)).
Proof.
  intros os_path_join directory es Hnd.
  rewrite (@count_sloc_in_directory_collect _ _ _ Hnd).
  split; [|split].
  - intros e H. apply collect_raise_inv in H as (He & f & Hf & Hdec).
    split; [exact He|]. exists f.
    apply filter_In in Hf as [Hf Hcs]. apply in_files_below in Hf. auto.
  - intros [pairs Hpairs] f Hf Hcs Hdec.
    rewrite (@collect_raise _ [] f) in Hpairs; [discriminate Hpairs| |exact Hdec].
    apply filter_In. split; [now apply in_files_below | exact Hcs].
  - intros Hall.
    destruct (@collect_ok (filter is_cs (files_below os_path_join directory es)) [])
      as (pairs & Hcol & _).
    + apply Forall_forall. intros f Hf. apply filter_In in Hf as [Hf Hcs].
      apply in_files_below in Hf. now apply Hall.
    + exists pairs. exact Hcol.
Qed.

Lemma scan_fails_only_on_an_undecodable_cs_file_witness :
  NoDup (List.map fst (paths posix_join (txt "repo") broken_tree)) /\
  count_sloc_in_directory posix_join (txt "repo") broken_tree =
    Raise UnicodeDecodeError /\
  exists f, file_below posix_join (txt "repo") broken_tree f /\
            endswith (txt ".cs") (found_name f) = true /\
            decode (found_content f) = None.
Proof.
  assert (H1 : NoDup (List.map fst (paths posix_join (txt "repo") broken_tree)))
    by distinct_paths.
  assert (H2 : count_sloc_in_directory posix_join (txt "repo") broken_tree =
               Raise UnicodeDecodeError) by reflexivity.
  exact (conj H1 (conj H2 (proj2
    (proj1 (@scan_fails_only_on_an_undecodable_cs_file
              posix_join (txt "repo") broken_tree H1)
       UnicodeDecodeError H2)))).
Defined.

Lemma filter_none {A : Type} (p : A -> bool) l :
  (forall x, In x l -> p x = false) -> filter p l = [].
Proof.
  induction l as [|x l IH]; intros H; [reflexivity|].
  simpl. rewrite (H x (or_introl eq_refl)). apply IH.
  intros y Hy. apply H. now right.
Qed.

(** X9: when no file below the root has a name ending with [.cs], no file
    is opened: the scan returns the empty list whatever the files hold,
    and the run prints the header, the two rules and a total of 0. *)
Theorem tree_without_cs_files_gives_an_empty_table :
  forall os_path_join directory es,
    NoDup (List.map fst (paths os_path_join directory es)) ->
    (forall f, file_below os_path_join directory es f ->
               endswith (txt ".cs") (found_name f) = false) ->
    count_sloc_in_directory os_path_join directory es = Ok [] /\
    main os_path_join directory es =
      {| stdout := [prompt; header; rule; rule;
                    format_row (txt "Total") (txt "0")];
         raised := None |}.
Proof.
  intros os_path_join directory es Hnd Hnone.
  assert (H : count_sloc_in_directory os_path_join directory es = Ok []).
  { rewrite (@count_sloc_in_directory_collect _ _ _ Hnd), filter_none; [reflexivity|].
    intros f Hf. apply in_files_below in Hf. now apply Hnone. }
  split; [exact H|]. unfold main. rewrite H. reflexivity.
Qed.

Lemma tree_without_cs_files_gives_an_empty_table_witness :
  NoDup (List.map fst (paths posix_join (txt "repo") no_cs_tree)) /\
  (forall f, file_below posix_join (txt "repo") no_cs_tree f ->
             endswith (txt ".cs") (found_name f) = false) /\
  count_sloc_in_directory posix_join (txt "repo") no_cs_tree = Ok [].
Proof.
  assert (H1 : NoDup (List.map fst (paths posix_join (txt "repo") no_cs_tree)))
    by distinct_paths.
  assert (H2 : forall f, file_below posix_join (txt "repo") no_cs_tree f ->
                         endswith (txt ".cs") (found_name f) = false).
  { intros f Hf. apply in_files_below in Hf. eval_files_in Hf.
    repeat (destruct Hf as [<- | Hf]; [reflexivity|]). contradiction. }
  exact (conj H1 (conj H2 (proj1
    (@tree_without_cs_files_gives_an_empty_table
       posix_join (txt "repo") no_cs_tree H1 H2)))).
Defined.

Lemma sum_counts_perm l l' :
  Permutation l l' -> sum_counts l = sum_counts l'.
Proof.
  unfold sum_counts. induction 1; simpl; lia.
Qed.

Lemma last_of_table pairs :
  last (print_sloc_table pairs) [] = total_row pairs.
Proof.
  rewrite print_sloc_table_lines.
  replace (header :: rule :: List.map data_row pairs ++ [rule; total_row pairs])
    with ((header :: rule :: List.map data_row pairs ++ [rule])
            ++ [total_row pairs])
    by (simpl; now rewrite <- app_assoc).
  apply last_last.
Qed.

(** X10: the sort before the report does not change the total: the
    Total row of the table made from the sorted list shows the sum of the
    counts of the list as the scan returned it. *)
Theorem sorted_table_totals_the_scanned_counts :
  forall pairs,
    last (print_sloc_table (sort_desc pairs)) [] =
      format_row (txt "Total") (int_text (sum_counts pairs)) /\
    sum_counts (sort_desc pairs) = sum_counts pairs.
Proof.
  intros pairs.
  assert (H : sum_counts (sort_desc pairs) = sum_counts pairs)
    by (symmetry; apply sum_counts_perm, sort_desc_perm).
  split; [|exact H].
  rewrite last_of_table. unfold total_row. now rewrite H.
Qed.

(** X11: a list already in descending order of count is left as it is
    by the sort, so sorting twice is sorting once. *)
Theorem sort_leaves_a_sorted_list_unchanged :
  forall l,
    (StronglySorted count_ge l -> sort_desc l = l) /\
    sort_desc (sort_desc l) = sort_desc l.
Proof.
  assert (H : forall l, StronglySorted count_ge l -> sort_desc l = l).
  { intros l Hl. symmetry. now apply stable_sort_unique. }
  intros l. split; [apply H|]. apply H, sort_desc_sorted.
Qed.

Lemma sort_leaves_a_sorted_list_unchanged_witness :
  let l := [(txt "A.cs", 10); (txt "B.cs", 3); (txt "C.cs", 3)] in
  StronglySorted count_ge l /\ sort_desc l = l.
Proof.
  intros l.
  assert (H : StronglySorted count_ge l).
  { unfold l, count_ge. repeat constructor; simpl; lia. }
  exact (conj H (proj1 (sort_leaves_a_sorted_list_unchanged l) H)).
Defined.

End ProgramMore.
